(** * GromacsWrapper: the XPM matrix reader (gromacs/fileformats/xpm.py)

    A shallow embedding of [XPM.parse], [XPM.col] and [XPM.unquote] together
    with the parts of Python 2, of the [re] module and of NumPy that they
    call, followed by the properties of the reader.

    Conventions of the model.
    - A Python [str] is a [string]; a Python [int] is a [Z] (Python 2
      integers do not wrap around).
    - The open file [xpm] is the list of the lines that are still unread,
      each line as [readline] returns it (with its line terminator).
    - Exhaustion of memory is outside the model. *)

From Stdlib Require Import ZArith Ascii String.
From Stdlib Require Import Floats.PrimFloat Floats.SpecFloat Floats.FloatOps.
From stdpp Require Import gmap strings list fin_maps.

Local Open Scope Z_scope.

(** ** Python built-ins used by the reader *)

Module Py.

(** [len(s)] *)
Definition len (s : string) : Z := Z.of_nat (String.length s).

(** An index of a slice, brought into [0 .. len] the way Python does it:
    a negative index counts from the end, everything is clipped. *)
Definition clip (n i : Z) : Z :=
  if i <? 0 then Z.max (i + n) 0 else Z.min i n.

(** [s[i:j]] *)
Definition slice (s : string) (i j : Z) : string :=
  let a := clip (len s) i in
  let b := clip (len s) j in
  substring (Z.to_nat a) (Z.to_nat (b - a)) s.

(** [s[:j]] and [s[i:]] *)
Definition slice_to (s : string) (j : Z) : string := slice s 0 j.
Definition slice_from (s : string) (i : Z) : string := slice s i (len s).

(** [s.find(c)] for a one-character [c]: the least index, or [-1]. *)
Fixpoint find_at (c : ascii) (s : string) (i : Z) : Z :=
  match s with
  | EmptyString => -1
  | String a s' => if Ascii.eqb a c then i else find_at c s' (i + 1)
  end.
Definition find (s : string) (c : ascii) : Z := find_at c s 0.

(** [s.rfind(c)] for a one-character [c]: the greatest index, or [-1]. *)
Fixpoint rfind_at (c : ascii) (s : string) (i last : Z) : Z :=
  match s with
  | EmptyString => last
  | String a s' => rfind_at c s' (i + 1) (if Ascii.eqb a c then i else last)
  end.
Definition rfind (s : string) (c : ascii) : Z := rfind_at c s 0 (-1).

(** [s.startswith(p)] *)
Definition startswith (s p : string) : bool := String.prefix p s.

(** [s.split()]: the maximal runs of characters that are not white space. *)
Definition split (s : string) : list string := String.words s.

(** [s.strip()] is only used to build a log record. *)
Fixpoint lstrip (s : string) : string :=
  match s with
  | String a s' => if Ascii.is_space a then lstrip s' else s
  | EmptyString => EmptyString
  end.
Definition strip (s : string) : string :=
  String.rev (lstrip (String.rev (lstrip s))).

(** [int(tok)] on a token without white space: an optional sign and at
    least one decimal digit; [None] stands for [ValueError]. *)
Definition digit (c : ascii) : option Z :=
  let n := Z.of_N (N_of_ascii c) in
  if (48 <=? n) && (n <=? 57) then Some (n - 48) else None.

Fixpoint digits (acc : Z) (s : string) : option Z :=
  match s with
  | EmptyString => Some acc
  | String c s' =>
      match digit c with
      | Some d => digits (10 * acc + d) s'
      | None => None
      end
  end.

Definition unsigned (s : string) : option Z :=
  match s with
  | EmptyString => None
  | _ => digits 0 s
  end.

Definition int (tok : string) : option Z :=
  match tok with
  | String "+" t => unsigned t
  | String "-" t => Z.opp <$> unsigned t
  | _ => unsigned tok
  end.

(** [xrange(start, stop, step)] for a step that is not zero. *)
Definition xrange_len (start stop step : Z) : nat :=
  if 0 <? step then
    if start <? stop then Z.to_nat ((stop - start - 1) / step + 1) else 0%nat
  else
    if stop <? start then Z.to_nat ((start - stop - 1) / (- step) + 1) else 0%nat.

Definition xrange (start stop step : Z) : list Z :=
  (λ i : nat, start + Z.of_nat i * step) <$> seq 0 (xrange_len start stop step).

(** [str(n)] for an integer. *)
Fixpoint pos_digits (fuel : nat) (n : Z) (acc : string) : string :=
  match fuel with
  | O => acc
  | S f =>
      let acc' := String (ascii_of_N (Z.to_N (48 + n mod 10))) acc in
      if n <? 10 then acc' else pos_digits f (n / 10) acc'
  end.
Definition str_of_int (n : Z) : string :=
  if n <? 0 then String "-" (pos_digits (Z.to_nat (- n)) (- n) EmptyString)
  else pos_digits (S (Z.to_nat n)) n EmptyString.

End Py.

(** Python's [find] and [rfind] with a string to look for. *)
Module PyStr.

(** [s.find(sub)] for a string [sub]: the least offset at which [sub]
    starts, or [-1]. *)
Fixpoint find_at (sub s : string) (i : Z) : Z :=
  if String.prefix sub s then i
  else match s with
       | EmptyString => -1
       | String _ s' => find_at sub s' (i + 1)
       end.
Definition find (s sub : string) : Z := find_at sub s 0.

(** [s.rfind(sub)]: the greatest offset at which [sub] starts, or [-1]. *)
Fixpoint rfind_at (sub s : string) (i last : Z) : Z :=
  let last' := if String.prefix sub s then i else last in
  match s with
  | EmptyString => last'
  | String _ s' => rfind_at sub s' (i + 1) last'
  end.
Definition rfind (s sub : string) : Z := rfind_at sub s 0 (-1).

End PyStr.

(** ** The part of the [re] module that [XPM.COLOUR] needs

    A pattern is a sequence of atoms, each optionally inside a named group.
    Every repetition of [COLOUR] is over a single-character class, and
    repetitions are greedy: the matcher first takes one more character and
    falls back to the rest of the pattern when that fails, as the
    backtracking matcher of [re] does. *)

Module Re.

Inductive atom : Type :=
| Bol                          (* ^ (no MULTILINE flag) *)
| Chr (c : ascii)              (* a literal character *)
| Cls (p : ascii → bool)       (* one character of a class *)
| Star (p : ascii → bool)      (* p*, greedy *)
| Plus (p : ascii → bool).     (* p+, greedy *)

(** The atoms with the name of the group they stand in, if any. *)
Definition pattern : Type := list (option string * atom).

(** [rep p k pos s]: the greedy loop of [p*] followed by the continuation
    [k]; the result is the text taken by the loop and what [k] returned. *)
Fixpoint rep {A} (p : ascii → bool) (k : nat → string → option A)
    (pos : nat) (s : string) : option (string * A) :=
  match s with
  | String a s' =>
      if p a then
        match rep p k (S pos) s' with
        | Some (w, r) => Some (String a w, r)
        | None => (λ r, (EmptyString, r)) <$> k pos s
        end
      else (λ r, (EmptyString, r)) <$> k pos s
  | EmptyString => (λ r, (EmptyString, r)) <$> k pos s
  end.

(** [exec pat pos s]: match [pat] against [s], which starts at offset
    [pos] of the subject; the result lists the text taken by each atom. *)
Fixpoint exec (pat : list atom) (pos : nat) (s : string) : option (list string) :=
  match pat with
  | [] => Some []
  | Bol :: pat' =>
      if Nat.eqb pos 0 then (λ r, EmptyString :: r) <$> exec pat' pos s else None
  | Chr c :: pat' =>
      match s with
      | String a s' =>
          if Ascii.eqb a c then (λ r, String a EmptyString :: r) <$> exec pat' (S pos) s'
          else None
      | EmptyString => None
      end
  | Cls p :: pat' =>
      match s with
      | String a s' =>
          if p a then (λ r, String a EmptyString :: r) <$> exec pat' (S pos) s'
          else None
      | EmptyString => None
      end
  | Star p :: pat' =>
      (λ wr : string * list string, wr.1 :: wr.2) <$> rep p (exec pat') pos s
  | Plus p :: pat' =>
      match s with
      | String a s' =>
          if p a then
            (λ wr : string * list string, String a wr.1 :: wr.2)
              <$> rep p (exec pat') (S pos) s'
          else None
      | EmptyString => None
      end
  end.

(** A match object: the text taken by each atom of the pattern. *)
Definition match_object : Type := list string.

(** [pat.search(s)]: the first offset from which the pattern matches. *)
Fixpoint search_at (pat : pattern) (pos : nat) (s : string) : option match_object :=
  match exec pat.*2 pos s with
  | Some segs => Some segs
  | None =>
      match s with
      | String _ s' => search_at pat (S pos) s'
      | EmptyString => None
      end
  end.
Definition search (pat : pattern) (s : string) : option match_object :=
  search_at pat 0 s.

(** [m.group(name)] for a match [m] of [pat]: the text taken by the atoms
    of the group. *)
Fixpoint group (pat : pattern) (m : match_object) (name : string) : string :=
  match pat, m with
  | (g, _) :: pat', w :: m' =>
      if decide (g = Some name) then w +:+ group pat' m' name
      else group pat' m' name
  | _, _ => EmptyString
  end.

(** The character classes of [COLOUR]. *)
Definition any (a : ascii) : bool := negb (Ascii.eqb a "010").        (* .  *)
Definition space (a : ascii) : bool := Ascii.is_space a.              (* \s *)
Definition between (lo hi a : ascii) : bool :=
  (N_of_ascii lo <=? N_of_ascii a)%N && (N_of_ascii a <=? N_of_ascii hi)%N.
Definition symbol_class (a : ascii) : bool :=                         (* [ a-zA-Z] *)
  Ascii.eqb a " " || between "a" "z" a || between "A" "Z" a.
Definition hex_class (a : ascii) : bool :=                            (* [0-9A-F] *)
  between "0" "9" a || between "A" "F" a.

End Re.

(** ** Exceptions *)

(** The exceptions the reader can end with.  [ParseError c] is
    [ParseError("XPM reader: Cannot parse colour specification %r." % c)]. *)
Inductive exn : Type :=
| ParseError (c : string)
| ValueError
| KeyError (key : string)
| IndexError
| ZeroDivisionError
| MemoryError.

(** ** The part of NumPy that the reader needs

    Scalars are the four kinds of value a legend can hold; the dtype of an
    array built from a list of them is their common type in the order
    bool < int < float < string, and [float64] for an empty list.  The item
    size of a string dtype is not modelled, and what the allocator answers
    for an array, which depends on it and on the machine, is a parameter. *)

Module Np.

Inductive scalar : Type :=
| Bool (b : bool)
| Int (n : Z)
| Float (x : float)
| Str (s : string).

Inductive dtype : Type := bool_ | int64 | float64 | string_.

Definition kind (v : scalar) : dtype :=
  match v with
  | Bool _ => bool_
  | Int _ => int64
  | Float _ => float64
  | Str _ => string_
  end.

Definition promote (d1 d2 : dtype) : dtype :=
  match d1, d2 with
  | string_, _ | _, string_ => string_
  | float64, _ | _, float64 => float64
  | int64, _ | _, int64 => int64
  | bool_, bool_ => bool_
  end.

(** [numpy.array(vals).dtype] *)
Definition result_dtype (vals : list scalar) : dtype :=
  match vals with
  | [] => float64
  | v :: vals' => foldr (λ w d, promote (kind w) d) (kind v) vals'
  end.

(** The element [numpy.zeros] fills an array with. *)
Definition zero (d : dtype) : scalar :=
  match d with
  | bool_ => Bool false
  | int64 => Int 0
  | float64 => Float PrimFloat.zero
  | string_ => Str EmptyString
  end.

Definition float_of_Z (n : Z) : float :=
  SF2Prim (binary_normalize prec emax n 0 false).

Section Cast.
(** The text numpy writes for a float when it stores it in a string
    array is left open. *)
Variable float_repr : float → string.

(** A value as it is stored in an array of dtype [d].  Only casts
    towards the common type occur: the dtype of the array is inferred
    from all the values that are ever stored. *)
Definition cast (d : dtype) (v : scalar) : scalar :=
  match d, v with
  | int64, Bool b => Int (if b then 1 else 0)
  | float64, Bool b => Float (float_of_Z (if b then 1 else 0))
  | float64, Int n => Float (float_of_Z n)
  | string_, Bool b => Str (if b then "True" else "False")
  | string_, Int n => Str (Py.str_of_int n)
  | string_, Float x => Str (float_repr x)
  | _, _ => v
  end.
End Cast.

(** A two-dimensional array: [cells] holds [shape.1] lists of [shape.2]
    elements, [data[i, j]] being element [j] of list [i]. *)
Record ndarray : Type := mk_ndarray {
  shape : Z * Z;
  dtype_of : dtype;
  cells : list (list scalar)
}.

(** The largest value of numpy's index type [intp], on a 64-bit platform. *)
Definition max_intp : Z := 2 ^ 63 - 1.

(** What the allocator answers when it is asked for the block of an array
    whose dimensions are within the index type: the block; a refusal
    because the number of bytes does not fit the index type ("array is too
    big", a [ValueError]); or a refusal because the machine does not have
    the memory (a [MemoryError]). *)
Inductive answer : Type := Granted | TooBig | NoMemory.

(** [numpy.zeros((n0, n1), dtype=d)].  A dimension that is negative or
    beyond the index type is refused with [ValueError] before anything is
    allocated, even when the other dimension is zero; for the other shapes
    the outcome is the answer [alloc n0 n1 d] of the allocator, which
    depends on the item size, on the version of numpy and on the machine. *)
Definition zeros (alloc : Z → Z → dtype → answer) (n0 n1 : Z) (d : dtype)
    : exn + ndarray :=
  if (n0 <? 0) || (n1 <? 0) || (max_intp <? n0) || (max_intp <? n1) then inl ValueError
  else
    match alloc n0 n1 d with
    | Granted =>
        inr {| shape := (n0, n1); dtype_of := d;
               cells := replicate (Z.to_nat n0) (replicate (Z.to_nat n1) (zero d)) |}
    | TooBig => inl ValueError
    | NoMemory => inl MemoryError
    end.

(** [data[i, j]] for indices in range. *)
Definition item (data : ndarray) (i j : nat) : option scalar :=
  cells data !! i ≫= λ r, r !! j.

(** [data[:, j] = vals]: the index is checked first; a list of one
    element is broadcast, a list of any other length has to have one
    element per entry of the column. *)
Definition set_column (float_repr : float → string)
    (data : ndarray) (j : Z) (vals : list scalar) : exn + ndarray :=
  let '(n0, n1) := shape data in
  if (j <? - n1) || (n1 <=? j) then inl IndexError
  else
    let j' := Z.to_nat (if j <? 0 then j + n1 else j) in
    let store (vs : list scalar) :=
      inr {| shape := shape data; dtype_of := dtype_of data;
             cells := zip_with (λ r v, <[j' := cast float_repr (dtype_of data) v]> r)
                               (cells data) vs |} in
    if decide (Z.of_nat (length vals) = n0) then store vals
    else
      match vals with
      | [v] => store (replicate (Z.to_nat n0) v)
      | _ => inl ValueError
      end.

End Np.

(** ** The reader object and its effects *)

(** A record handed to [XPM.logger]: the level, the format string and the
    arguments, as [logging] keeps them. *)
Inductive level : Type := DEBUG | FATAL.

Inductive log_arg : Type :=
| AStr (s : string)
| AInt (n : Z)
| AColours (d : gmap string Np.scalar)
| ADtypeName (d : Np.dtype).

Record LogRecord : Type := mk_record {
  levelname : level;
  msg : string;
  args : list log_arg
}.

(** The [XPM] object: the [autoconvert] flag, the private [__array] and the
    records its logger has received so far. *)
Record XPM : Type := mk_XPM {
  autoconvert : bool;
  XPM__array : option Np.ndarray;
  logger : list LogRecord
}.

(** The read-only property [XPM.array]. *)
Definition array (self : XPM) : option Np.ndarray := XPM__array self.

(** Methods either return a value or raise, and may change the object. *)
Definition M (A : Type) : Type := XPM → (exn + A) * XPM.

#[global] Instance M_ret : MRet M := λ A a self, (inr a, self).

#[global] Instance M_bind : MBind M := λ A B f m self,
  match m self with
  | (inl e, self') => (inl e, self')
  | (inr a, self') => f a self'
  end.

Definition raise {A} (e : exn) : M A := λ self, (inl e, self).

Definition lift {A} (r : exn + A) : M A := λ self, (r, self).

Definition log (lv : level) (fmt : string) (a : list log_arg) : M unit := λ self,
  (inr (), {| autoconvert := autoconvert self;
              XPM__array := XPM__array self;
              logger := logger self ++ [mk_record lv fmt a] |}).

Definition get_autoconvert : M bool := λ self, (inr (autoconvert self), self).

Definition set_array (data : Np.ndarray) : M unit := λ self,
  (inr (), {| autoconvert := autoconvert self;
              XPM__array := Some data;
              logger := logger self |}).

(** ** The reader *)

(** The quote mark and the line terminator. *)
Definition dquote : ascii := "034".

Definition newline : string := String "010" EmptyString.

(** [XPM.COLOUR], read in verbose mode. *)
Definition COLOUR : Re.pattern :=
  [ (None, Re.Bol);
    (None, Re.Star Re.any);
    (None, Re.Chr dquote);
    (Some "symbol", Re.Cls Re.symbol_class);
    (None, Re.Plus Re.space);
    (None, Re.Chr "c");
    (None, Re.Plus Re.space);
    (Some "color", Re.Chr "#");
    (Some "color", Re.Plus Re.hex_class);
    (None, Re.Star Re.space);
    (None, Re.Chr dquote);
    (None, Re.Star Re.space);
    (None, Re.Chr "/");
    (None, Re.Chr "*");
    (None, Re.Star Re.space);
    (None, Re.Chr dquote);
    (Some "value", Re.Star Re.any);
    (None, Re.Chr dquote) ].

(** The marker that opens the array declaration. *)
Definition marker : string := "static char *gromacs_xpm[]".

(** [XPM.unquote] *)
Definition unquote (s : string) : string :=
  Py.slice s (1 + Py.find s dquote) (Py.rfind s dquote).

(** [XPM.uncomment] *)
Definition uncomment (s : string) : string :=
  Py.slice s (2 + PyStr.find s "/*") (PyStr.rfind s "*/").

(** [XPM.col] *)
Definition col (c : string) : M (string * string) :=
  match Re.search COLOUR c with
  | None =>
      log FATAL "Cannot parse colour specification %r." [AStr c];;
      raise (ParseError c)
  | Some m =>
      let value := Re.group COLOUR m "value" in
      let color := Re.group COLOUR m "symbol" in
      log DEBUG ("%s: %s %s" +:+ newline) [AStr (Py.strip c); AStr color; AStr value];;
      mret (color, value)
  end.

(** [xpm.readline()]: the next line and the rest of the file; the empty
    string at the end of the file. *)
Definition readline (xpm : list string) : string * list string :=
  match xpm with
  | [] => (EmptyString, [])
  | l :: xpm' => (l, xpm')
  end.

(** [meta[-1]] of a list that is never empty here. *)
Definition last_line (meta : list string) : string := default EmptyString (last meta).

(** The loop [while not meta[-1].startswith(marker): meta.append(xpm.readline())];
    [fuel] bounds the number of times the condition is tested, and [None]
    says that the loop is still running when the fuel is used up. *)
Fixpoint scan_meta (fuel : nat) (meta xpm : list string) : option (list string * list string) :=
  match fuel with
  | O => None
  | S fuel' =>
      if Py.startswith (last_line meta) marker then Some (meta, xpm)
      else
        let '(l, xpm') := readline xpm in
        scan_meta fuel' (meta ++ [l]) xpm'
  end.

(** [nx, ny, nc, nb = [int(i) for i in self.unquote(dim).split()]] *)
Definition read_dims (dim : string) : M (Z * Z * Z * Z) :=
  match mapM Py.int (Py.split (unquote dim)) with
  | Some [nx; ny; nc; nb] => mret (nx, ny, nc, nb)
  | _ => raise ValueError
  end.

(** [[self.col(xpm.readline()) for i in xrange(nc)]] *)
Fixpoint read_colours (n : nat) (xpm : list string) : M (list (string * string) * list string) :=
  match n with
  | O => mret ([], xpm)
  | S n' =>
      let '(c, xpm') := readline xpm in
      p ← col c;
      '(ps, xpm'') ← read_colours n' xpm';
      mret (p :: ps, xpm'')
  end.

(** [dict(pairs)]: a later pair overrides an earlier one with the same key. *)
Definition dict {V} (pairs : list (string * V)) : gmap string V :=
  foldl (λ d p, <[p.1 := p.2]> d) ∅ pairs.

(** [[colors[s[k:k+nb]] for k in xrange(0, nx, nb)]] *)
Fixpoint lookup_all (colors : gmap string Np.scalar) (s : string) (nb : Z) (ks : list Z)
    : exn + list Np.scalar :=
  match ks with
  | [] => inr []
  | k :: ks' =>
      let key := Py.slice s k (k + nb) in
      match colors !! key with
      | None => inl (KeyError key)
      | Some v =>
          match lookup_all colors s nb ks' with
          | inl e => inl e
          | inr vs => inr (v :: vs)
          end
      end
  end.

Section Reader.

(** [Autoconverter(mode="singlet").convert], from [gromacs.fileformats.convert],
    the text of a float in a string array, and the answers of the allocator
    of the machine the reader runs on. *)
Variable convert : string → Np.scalar.
Variable float_repr : float → string.
Variable alloc : Z → Z → Np.dtype → Np.answer.

(** The loop [for line in xpm] over the lines that are left. *)
Fixpoint read_rows (colors : gmap string Np.scalar) (nx nb : Z)
    (xpm : list string) (data : Np.ndarray) (iy : Z) : M Np.ndarray :=
  match xpm with
  | [] => mret data
  | line :: xpm' =>
      if Py.startswith line "/*" then read_rows colors nx nb xpm' data iy
      else
        let s := unquote line in
        vals ← lift (if nb =? 0 then inl ValueError
                     else lookup_all colors s nb (Py.xrange 0 nx nb));
        data' ← lift (Np.set_column float_repr data iy vals);
        log DEBUG "read row %d with %d columns: '%s....%s'"
          [AInt iy; AInt (Np.shape data').1; AStr (Py.slice_to s 4); AStr (Py.slice_from s (-4))];;
        read_rows colors nx nb xpm' data' (iy + 1)
  end.

(** The body of the [with] block from the dimension line on; the result
    is the local variable [data]. *)
Definition decode (xpm : list string) : M Np.ndarray :=
  let '(dim, xpm) := readline xpm in
  '(nx, ny, nc, nb) ← read_dims dim;
  '(pairs, xpm) ← read_colours (Z.to_nat nc) xpm;
  let colors0 := dict pairs in
  auto ← get_autoconvert;
  colors ← (if auto : bool then
              let colors := convert <$> colors0 in
              log DEBUG "Autoconverted colours: %r" [AColours colors];;
              mret colors
            else mret (Np.Str <$> colors0));
  let dtype := Np.result_dtype (map_to_list colors).*2 in
  log DEBUG "Guessed array type: %s" [ADtypeName dtype];;
  data ← (if nb =? 0 then raise ZeroDivisionError
          else lift (Np.zeros alloc (nx / nb) ny dtype));
  log DEBUG "dimensions: NX=%d NY=%d strideX=%d (NC=%d) --> (%d, %d)"
    [AInt nx; AInt ny; AInt nb; AInt nc; AInt (nx / nb); AInt ny];;
  read_rows colors nx nb xpm data 0.

(** [XPM.parse] once the marker has been found: decode, then
    [self.__array = data]. *)
Definition parse_array (xpm : list string) : M unit :=
  data ← decode xpm;
  set_array data.

(** [XPM.parse] on the lines of the file; [None] when the scan for the
    marker has not ended within [fuel] tests of its condition. *)
Definition parse (fuel : nat) (xpm : list string) (self : XPM) : option ((exn + unit) * XPM) :=
  let '(l, xpm) := readline xpm in
  match scan_meta fuel [l] xpm with
  | None => None
  | Some (_, xpm) => Some (parse_array xpm self)
  end.

End Reader.

(** * The vocabulary of the properties *)

(** Every character of [w] is in the class [p]. *)
Fixpoint all_in (p : ascii → bool) (w : string) : bool :=
  match w with
  | EmptyString => true
  | String a w' => p a && all_in p w'
  end.

(** The text [w], found at offset [pos], is one that the atom accepts. *)
Definition takes (a : Re.atom) (pos : nat) (w : string) : Prop :=
  match a with
  | Re.Bol => pos = 0%nat ∧ w = EmptyString
  | Re.Chr c => w = String c EmptyString
  | Re.Cls p => ∃ x, p x = true ∧ w = String x EmptyString
  | Re.Star p => all_in p w = true
  | Re.Plus p => w ≠ EmptyString ∧ all_in p w = true
  end.

(** The texts [segs], laid end to end from offset [pos], are accepted atom
    by atom. *)
Fixpoint parses (pat : list Re.atom) (pos : nat) (segs : list string) : Prop :=
  match pat, segs with
  | [], [] => True
  | a :: pat', w :: segs' => takes a pos w ∧ parses pat' (pos + String.length w) segs'
  | _, _ => False
  end.

(** The texts laid end to end. *)
Fixpoint join (segs : list string) : string :=
  match segs with
  | [] => EmptyString
  | w :: segs' => w +:+ join segs'
  end.

(** The parts of a legend line, in the order of the pattern: anything, a
    quote, the symbol, white space, [c], white space, [#] and the hex
    digits, optional white space, a quote, optional white space, the
    comment opener, optional white space, a quote, the value, a quote. *)
Record legend : Type := mk_legend {
  l_pre : string;
  l_symbol : ascii;
  l_ws1 : string;
  l_ws2 : string;
  l_hex : string;
  l_ws3 : string;
  l_ws4 : string;
  l_ws5 : string;
  l_value : string
}.

(** The text of a legend entry with these parts. *)
Definition legend_text (g : legend) : string :=
  l_pre g +:+ String dquote (String (l_symbol g) (l_ws1 g +:+ String "c" (l_ws2 g +:+
  String "#" (l_hex g +:+ l_ws3 g +:+ String dquote (l_ws4 g +:+ String "/" (String "*"
  (l_ws5 g +:+ String dquote (l_value g +:+ String dquote EmptyString)))))))).

(** [s] has at least one character. *)
Definition nonempty (s : string) : bool :=
  match s with EmptyString => false | _ => true end.

(** Every part is made of the characters the pattern allows for it. *)
Definition legend_ok (g : legend) : bool :=
  all_in Re.any (l_pre g) && Re.symbol_class (l_symbol g)
  && nonempty (l_ws1 g) && all_in Re.space (l_ws1 g)
  && nonempty (l_ws2 g) && all_in Re.space (l_ws2 g)
  && nonempty (l_hex g) && all_in Re.hex_class (l_hex g)
  && all_in Re.space (l_ws3 g) && all_in Re.space (l_ws4 g) && all_in Re.space (l_ws5 g)
  && all_in Re.any (l_value g).

(** The line starts with a legend entry: this is what the spec calls the
    required legend pattern. *)
Definition legend_line (c : string) : Prop :=
  ∃ g post, legend_ok g = true ∧ c = legend_text g +:+ post.

(** The number of quote marks of a string. *)
Fixpoint count_quotes (s : string) : nat :=
  match s with
  | EmptyString => 0
  | String a s' => (if Ascii.eqb a dquote then 1 else 0) + count_quotes s'
  end.

(** [self'] differs from [self] at most by records added to the logger. *)
Definition unchanged (self self' : XPM) : Prop :=
  autoconvert self' = autoconvert self ∧
  XPM__array self' = XPM__array self ∧
  ∃ l, logger self' = logger self ++ l.

(** A computation that changes at most the logger. *)
Definition frames {A} (m : M A) : Prop :=
  ∀ self r self', m self = (r, self') → unchanged self self'.

(** The cells of an array agree with its shape. *)
Definition wf (data : Np.ndarray) : Prop :=
  0 ≤ (Np.shape data).1 ∧ 0 ≤ (Np.shape data).2 ∧
  length (Np.cells data) = Z.to_nat (Np.shape data).1 ∧
  Forall (λ r, length r = Z.to_nat (Np.shape data).2) (Np.cells data).

(** The lines of the body that the row loop decodes: all but the comments. *)
Definition data_rows (body : list string) : list string :=
  filter (λ l, Py.startswith l "/*" = false) body.

(** Every slice the row loop takes from the line is a key of the palette. *)
Definition row_ok (colors : gmap string Np.scalar) (nx nb : Z) (line : string) : Prop :=
  Forall (λ k, is_Some (colors !! Py.slice (unquote line) k (k + nb))) (Py.xrange 0 nx nb).

(** The list of values of a row can be stored in a column of [n0] entries. *)
Definition fits (nx nb n0 : Z) : Prop :=
  Z.of_nat (length (Py.xrange 0 nx nb)) = n0 ∨ length (Py.xrange 0 nx nb) = 1%nat.

(** The four integers of a dimension line, when it holds exactly four. *)
Definition dims_of (dim : string) : option (Z * Z * Z * Z) :=
  match mapM Py.int (Py.split (unquote dim)) with
  | Some [nx; ny; nc; nb] => Some (nx, ny, nc, nb)
  | _ => None
  end.

(** The pair [XPM.col] returns for a line it accepts. *)
Definition legend_pair (c : string) : option (string * string) :=
  (λ m, (Re.group COLOUR m "symbol", Re.group COLOUR m "value")) <$> Re.search COLOUR c.

(** The record [XPM.col] hands to the logger before it raises. *)
Definition fatal_record (c : string) : LogRecord :=
  mk_record FATAL "Cannot parse colour specification %r." [AStr c].

(** The object after one more record has been logged. *)
Definition logged (self : XPM) (r : LogRecord) : XPM :=
  {| autoconvert := autoconvert self;
     XPM__array := XPM__array self;
     logger := logger self ++ [r] |}.

(** The line does not begin with the marker. *)
Definition no_marker (l : string) : Prop := Py.startswith l marker = false.

(** [sub] starts somewhere in [s]. *)
Fixpoint occurs (sub s : string) : bool :=
  String.prefix sub s ||
  match s with
  | EmptyString => false
  | String _ s' => occurs sub s'
  end.

(** The object after the records [l] have been logged. *)
Definition add_log (self : XPM) (l : list LogRecord) : XPM :=
  {| autoconvert := autoconvert self;
     XPM__array := XPM__array self;
     logger := logger self ++ l |}.

(** A computation that reads nothing of the object but the [autoconvert]
    flag: on two objects with the same flag it gives the same result and
    logs the same records. *)
Definition oblivious {A} (m : M A) : Prop :=
  ∀ s1 s2, autoconvert s1 = autoconvert s2 →
    ∃ r l, m s1 = (r, add_log s1 l) ∧ m s2 = (r, add_log s2 l).

(** [numpy.zeros] returns an array of this shape and dtype: the dimensions
    are within the index type and the allocator grants the block. *)
Definition allocates (alloc : Z → Z → Np.dtype → Np.answer) (n0 n1 : Z) (d : Np.dtype)
    : Prop :=
  0 ≤ n0 ≤ Np.max_intp ∧ 0 ≤ n1 ≤ Np.max_intp ∧ alloc n0 n1 d = Np.Granted.

Section Vocabulary.

Variable convert : string → Np.scalar.
Variable float_repr : float → string.
Variable alloc : Z → Z → Np.dtype → Np.answer.

(** The palette: the dictionary of the legend, its values converted when
    [autoconvert] is set. *)
Definition palette (auto : bool) (pairs : list (string * string)) : gmap string Np.scalar :=
  if auto then convert <$> dict pairs else Np.Str <$> dict pairs.

(** The dtype inferred from the values of the palette. *)
Definition palette_dtype (colors : gmap string Np.scalar) : Np.dtype :=
  Np.result_dtype (map_to_list colors).*2.

(** The file opens with lines without the marker, the marker line, a
    dimension line with the four integers and [nc] legend lines; [colors]
    is the palette they define and [body] is what follows them. *)
Definition header (auto : bool) (xpm : list string) (nx ny nc nb : Z)
    (colors : gmap string Np.scalar) (body : list string) : Prop :=
  ∃ pre m dim pal pairs,
    xpm = pre ++ m :: dim :: pal ++ body ∧
    Forall no_marker pre ∧ Py.startswith m marker = true ∧
    dims_of dim = Some (nx, ny, nc, nb) ∧
    length pal = Z.to_nat nc ∧
    mapM legend_pair pal = Some pairs ∧
    colors = palette auto pairs.

(** [parse] returns [r]: the scan for the marker ends, and whatever fuel
    is enough for it gives the same result. *)
Definition returns (xpm : list string) (self : XPM) (r : (exn + unit) * XPM) : Prop :=
  ∃ n, ∀ fuel, (n ≤ fuel)%nat → parse convert float_repr alloc fuel xpm self = Some r.

End Vocabulary.

(** * Concrete files *)

(** [s] between quote marks. *)
Definition quoted (s : string) : string := String dquote (s +:+ String dquote EmptyString).

(** A legend line as Gromacs writes it. *)
Definition legend_entry (symbol colour value : string) : string :=
  quoted (symbol +:+ "  c " +:+ colour +:+ " ") +:+ " /* " +:+ quoted value +:+ " */,"
  +:+ newline.

(** A data row; every row but the last ends with a comma. *)
Definition data_line (s : string) : string := quoted s +:+ "," +:+ newline.

(** A comment line, the marker line and the dimension line. *)
Definition head_lines (dims : string) : list string :=
  [ "/* XPM */" +:+ newline;
    "static char *gromacs_xpm[] = {" +:+ newline;
    quoted dims +:+ "," +:+ newline ].

(** The legend of the fixture: [' '] stands for ["0"], ['o'] for ["1"]. *)
Definition legend01 : list string :=
  [ legend_entry " " "#FFFFFF" "0"; legend_entry "o" "#FF0000" "1" ].

(** Modelled from the spec: [Autoconverter.convert] of
    [gromacs.fileformats.convert], which is not part of the sources at hand,
    on values that spell a boolean or an integer; any other value is kept as
    a string (an instance of the parameter [convert] for files whose legend
    holds no float). *)
Definition convert_model (s : string) : Np.scalar :=
  if String.eqb s "True" then Np.Bool true
  else if String.eqb s "False" then Np.Bool false
  else match Py.int s with
       | Some n => Np.Int n
       | None => Np.Str s
       end.

(** An instance of the parameter [float_repr] for arrays that hold no float. *)
Definition float_repr_none (x : float) : string := EmptyString.

(** An instance of the parameter [alloc]: a machine that grants every array
    of up to [2 ^ 20] cells and has no memory for a larger one. *)
Definition alloc_model (n0 n1 : Z) (d : Np.dtype) : Np.answer :=
  if n0 * n1 <=? 2 ^ 20 then Np.Granted else Np.NoMemory.

(** A fresh reader: [XPM()] with the default [autoconvert=True]. *)
Definition fresh : XPM := {| autoconvert := true; XPM__array := None; logger := [] |}.

(** The fixture of the spec, with rows of [nx] symbols: two columns, two
    rows, two colours, one character per pixel. *)
Definition fixture : list string :=
  head_lines "2 2 2 1" ++ legend01 ++ [data_line " o"; quoted "o " +:+ newline].

(** The fixture as the spec writes it: a width of 4 over rows of 2 symbols. *)
Definition fixture_nx4 : list string :=
  head_lines "4 2 2 1" ++ legend01 ++ [data_line " o"; quoted "o " +:+ newline].

(** The fixture with one of its two rows missing. *)
Definition short_file : list string :=
  head_lines "2 2 2 1" ++ legend01 ++ [data_line " o"].

(** The fixture with a symbol in its second row that the legend does not have. *)
Definition unknown_file : list string :=
  head_lines "2 2 2 1" ++ legend01 ++ [data_line " o"; data_line "ox"].

(** A width of 3 with a stride of 2, and one row of three symbols. *)
Definition stride_file : list string :=
  head_lines "3 1 1 2" ++ [legend_entry "o" "#FF0000" "1"] ++ [quoted "ooo" +:+ newline].

(** A dimension line with three integers. *)
Definition three_dims_file : list string :=
  head_lines "4 2 2" ++ legend01 ++ [data_line " o"; quoted "o " +:+ newline].

(** A legend whose second line lacks the comment with the value. *)
Definition bad_legend_line : string := quoted "o  c #FF0000 " +:+ "," +:+ newline.

(** The fixture with that line in its legend. *)
Definition bad_legend_file : list string :=
  head_lines "2 2 2 1" ++ [legend_entry " " "#FFFFFF" "0"; bad_legend_line]
  ++ [data_line " o"; quoted "o " +:+ newline].

(** A text file that is not an XPM file. *)
Definition no_marker_file : list string :=
  [ "# This file was created by some other program" +:+ newline;
    "@    title " +:+ quoted "Hydrogen bonds" +:+ newline ].

(** A legend line with a quoted character in front of the legend entry. *)
Definition prefixed_legend_line : string :=
  quoted "x" +:+ " " +:+ legend_entry "o" "#FF0000" "1".

(** The fixture with a height of 3, two data rows, and a symbol in the
    second that the legend does not have. *)
Definition short_unknown_file : list string :=
  head_lines "2 3 2 1" ++ legend01 ++ [data_line " o"; data_line "ox"].



(** A header whose height is beyond the index type, with a stride larger
    than the width: the array would be empty. *)
Definition huge_height_file : list string :=
  head_lines "1 99999999999999999999 2 2" ++ legend01.

(** A header that asks for more cells than [alloc_model] has memory for. *)
Definition large_file : list string :=
  head_lines "2048 2048 2 1" ++ legend01.

(** The fixture with a comment line between its two rows. *)
Definition commented_body : list string :=
  [data_line " o"; "/* y-axis:  1 2 */" +:+ newline; quoted "o " +:+ newline].

(** The fixture with a height of 1: one data row too many. *)
Definition long_file : list string :=
  head_lines "2 1 2 1" ++ legend01 ++ [data_line " o"; quoted "o " +:+ newline].

(** The fixture with a stride of zero. *)
Definition zero_stride_file : list string :=
  head_lines "2 2 2 0" ++ legend01 ++ [data_line " o"; quoted "o " +:+ newline].

(** The fixture with a negative height. *)
Definition negative_height_file : list string :=
  head_lines "2 -2 2 1" ++ legend01 ++ [data_line " o"; quoted "o " +:+ newline].

(** A legend that gives the symbol ['o'] twice. *)
Definition repeated_legend : list string :=
  [ legend_entry "o" "#FFFFFF" "0"; legend_entry "o" "#FF0000" "1";
    legend_entry " " "#0000FF" "7" ].

(** A reader made with [autoconvert=False]. *)
Definition plain : XPM := {| autoconvert := false; XPM__array := None; logger := [] |}.

(** A reader that has read a file before: it holds an array and a log. *)
Definition used : XPM :=
  {| autoconvert := true;
     XPM__array := Some {| Np.shape := (1, 1); Np.dtype_of := Np.int64;
                           Np.cells := [[Np.Int 5]] |};
     logger := [mk_record DEBUG "Guessed array type: %s" [ADtypeName Np.int64]] |}.

(** * Properties *)

(** ** The built-ins on examples *)

Example slice_ex1 : Py.slice "hello" 1 3 = "el". Proof. reflexivity. Qed.
Example slice_ex2 : Py.slice "hello" 3 9 = "lo". Proof. reflexivity. Qed.
Example slice_ex3 : Py.slice "hello" 0 (-1) = "hell". Proof. reflexivity. Qed.
Example slice_ex4 : Py.slice "hello" 5 6 = "". Proof. reflexivity. Qed.
Example slice_ex5 : Py.slice_from "hello" (-4) = "ello". Proof. reflexivity. Qed.
Example xrange_ex1 : Py.xrange 0 5 2 = [0; 2; 4]. Proof. reflexivity. Qed.
Example xrange_ex2 : Py.xrange 0 (-3) (-1) = [0; -1; -2]. Proof. reflexivity. Qed.
Example xrange_ex3 : Py.xrange 0 4 1 = [0; 1; 2; 3]. Proof. reflexivity. Qed.
Example int_ex1 : Py.int "14327" = Some 14327. Proof. reflexivity. Qed.
Example int_ex2 : Py.int "-7" = Some (-7). Proof. reflexivity. Qed.
Example int_ex3 : Py.int "4x" = None. Proof. reflexivity. Qed.
Example int_ex4 : Py.int "+" = None. Proof. reflexivity. Qed.
Example split_ex1 : Py.split "14327 9   2 1" = ["14327"; "9"; "2"; "1"].
Proof. reflexivity. Qed.
Example str_ex1 : Py.str_of_int 120 = "120" ∧ Py.str_of_int (-45) = "-45" ∧ Py.str_of_int 0 = "0".
Proof. repeat split; reflexivity. Qed.

Example zeros_ex : ∃ data, Np.zeros (λ _ _ _, Np.Granted) 2 3 Np.int64 = inr data ∧
  Np.cells data = [[Np.Int 0; Np.Int 0; Np.Int 0]; [Np.Int 0; Np.Int 0; Np.Int 0]].
Proof. eexists; split; reflexivity. Qed.
Example float_ex : Np.float_of_Z 3 = 3%float. Proof. reflexivity. Qed.

(** ** Strings *)

Lemma app_nil_l_s (s : string) : EmptyString +:+ s = s.
Proof. reflexivity. Qed.

Lemma app_cons_s (a : ascii) (s t : string) : String a s +:+ t = String a (s +:+ t).
Proof. reflexivity. Qed.

Lemma app_nil_r_s (s : string) : s +:+ EmptyString = s.
Proof. induction s as [|a s IH]; [done|]. by rewrite app_cons_s, IH. Qed.

Lemma app_assoc_s (s t u : string) : (s +:+ t) +:+ u = s +:+ (t +:+ u).
Proof. induction s as [|a s IH]; [done|]. by rewrite !app_cons_s, IH. Qed.

Lemma length_app_s (s t : string) :
  String.length (s +:+ t) = (String.length s + String.length t)%nat.
Proof. induction s as [|a s IH]; [done|]. rewrite app_cons_s. simpl. by rewrite IH. Qed.

(** ** The matcher against a declarative reading of patterns *)

Lemma rep_sound {A} p (k : nat → string → option A) s : ∀ pos w r,
  Re.rep p k pos s = Some (w, r) →
  all_in p w = true ∧ ∃ s', s = w +:+ s' ∧ k (pos + String.length w)%nat s' = Some r.
Proof.
  induction s as [|a s IH]; intros pos w r; simpl.
  - destruct (k pos EmptyString) as [r'|] eqn:Hk; intros [= <- <-].
    split; [done|]. exists EmptyString. by rewrite Nat.add_0_r.
  - assert (Hstop : (λ r0, (EmptyString, r0)) <$> k pos (String a s) = Some (w, r) →
      all_in p w = true ∧ ∃ s', String a s = w +:+ s' ∧
        k (pos + String.length w)%nat s' = Some r).
    { destruct (k pos (String a s)) as [r'|] eqn:Hk; intros [= <- <-].
      split; [done|]. exists (String a s). by rewrite Nat.add_0_r. }
    destruct (p a) eqn:Hp; [|exact Hstop].
    destruct (Re.rep p k (S pos) s) as [[w' r']|] eqn:Hrep; [|exact Hstop].
    intros [= <- <-]. apply IH in Hrep as (Hall & s' & -> & Hk).
    split; [simpl; by rewrite Hp|].
    exists s'. split; [done|]. simpl. by rewrite <-Nat.add_succ_comm.
Qed.

Lemma rep_complete {A} p (k : nat → string → option A) w : ∀ pos s',
  all_in p w = true →
  is_Some (k (pos + String.length w)%nat s') →
  is_Some (Re.rep p k pos (w +:+ s')).
Proof.
  induction w as [|a w IH]; intros pos s' Hall Hk.
  - rewrite app_nil_l_s. simpl in Hk. rewrite Nat.add_0_r in Hk.
    destruct Hk as [r Hk].
    destruct s' as [|b s']; simpl; [by rewrite Hk; eexists|].
    destruct (p b); [|by rewrite Hk; eexists].
    destruct (Re.rep p k (S pos) s') as [[??]|]; [by eexists|].
    rewrite Hk. by eexists.
  - rewrite app_cons_s. simpl in Hall. apply andb_prop in Hall as [Hp Hall].
    simpl. rewrite Hp.
    destruct (IH (S pos) s' Hall) as [[w' r] ->]; [|by eexists].
    simpl in Hk. by rewrite <-Nat.add_succ_comm in Hk.
Qed.

Lemma exec_sound pat : ∀ pos s segs,
  Re.exec pat pos s = Some segs →
  parses pat pos segs ∧ ∃ rest, s = join segs +:+ rest.
Proof.
  induction pat as [|a pat IH]; intros pos s segs; simpl.
  - intros [= <-]. split; [done|]. by exists s.
  - destruct a as [|c|p|p|p].
    + destruct (Nat.eqb_spec pos 0) as [->|]; [|done].
      destruct (Re.exec pat 0 s) as [r|] eqn:He; intros [= <-].
      apply IH in He as [Hp [rest ->]]. split; [done|]. by exists rest.
    + destruct s as [|x s]; [done|].
      destruct (Ascii.eqb_spec x c) as [->|]; [|done].
      destruct (Re.exec pat (S pos) s) as [r|] eqn:He; intros [= <-].
      apply IH in He as [Hp [rest ->]]. split.
      * split; [done|]. simpl. by rewrite Nat.add_1_r.
      * by exists rest.
    + destruct s as [|x s]; [done|].
      destruct (p x) eqn:Hx; [|done].
      destruct (Re.exec pat (S pos) s) as [r|] eqn:He; intros [= <-].
      apply IH in He as [Hp [rest ->]]. split.
      * split; [by exists x|]. simpl. by rewrite Nat.add_1_r.
      * by exists rest.
    + destruct (Re.rep p (Re.exec pat) pos s) as [[w r]|] eqn:Hr; intros [= <-].
      apply rep_sound in Hr as (Hall & s' & -> & He).
      apply IH in He as [Hp [rest ->]]. split; [done|].
      exists rest. simpl. by rewrite app_assoc_s.
    + destruct s as [|x s]; [done|].
      destruct (p x) eqn:Hx; [|done].
      destruct (Re.rep p (Re.exec pat) (S pos) s) as [[w r]|] eqn:Hr; intros [= <-].
      apply rep_sound in Hr as (Hall & s' & -> & He).
      apply IH in He as [Hp [rest ->]]. split.
      * split; [split; [done|simpl; by rewrite Hx]|].
        simpl. by rewrite <-Nat.add_succ_comm.
      * exists rest. simpl. by rewrite ?app_cons_s, app_assoc_s.
Qed.

Lemma exec_complete pat : ∀ pos segs rest,
  parses pat pos segs → is_Some (Re.exec pat pos (join segs +:+ rest)).
Proof.
  induction pat as [|a pat IH]; intros pos segs rest; simpl.
  - by eexists.
  - destruct segs as [|w segs]; [done|]. intros [Ha Hp].
    assert (Hk := IH _ _ rest Hp). simpl. rewrite app_assoc_s.
    destruct a as [|c|p|p|p]; simpl in Ha.
    + destruct Ha as [-> ->]. simpl in *. rewrite app_nil_l_s.
      destruct Hk as [r ->]. by eexists.
    + subst w. simpl in *. rewrite Ascii.eqb_refl, app_nil_l_s.
      rewrite Nat.add_1_r in Hk. destruct Hk as [r ->]. by eexists.
    + destruct Ha as (x & Hx & ->). simpl in *. rewrite Hx, app_nil_l_s.
      rewrite Nat.add_1_r in Hk. destruct Hk as [r ->]. by eexists.
    + destruct (rep_complete p (Re.exec pat) w pos _ Ha Hk) as [[w' r] ->]. by eexists.
    + destruct Ha as [Hne Hall]. destruct w as [|x w]; [done|].
      simpl in Hall. apply andb_prop in Hall as [Hx Hall].
      rewrite app_cons_s. rewrite Hx. simpl in Hk.
      rewrite <-Nat.add_succ_comm in Hk.
      destruct (rep_complete p (Re.exec pat) w (S pos) _ Hall Hk) as [[w' r] ->].
      by eexists.
Qed.

(** A pattern that starts with [^] can only match from the start. *)
Lemma search_at_bol g pat s : ∀ pos,
  Re.search_at ((g, Re.Bol) :: pat) (S pos) s = None.
Proof. induction s as [|a s IH]; intros pos; simpl; [done|]. apply IH. Qed.

Lemma search_bol g pat s :
  Re.search ((g, Re.Bol) :: pat) s = Re.exec (Re.Bol :: pat.*2) 0 s.
Proof.
  unfold Re.search. destruct s as [|a s]; simpl; fold (@fmap list _ _ _ snd pat).
  - by destruct (Re.exec pat.*2 0 EmptyString).
  - destruct (Re.exec pat.*2 0 (String a s)); simpl; [done|]. apply search_at_bol.
Qed.

(** ** What [COLOUR] accepts *)

Lemma nonempty_ne s : nonempty s = true ↔ s ≠ EmptyString.
Proof. destruct s; simpl; split; (done || congruence). Qed.

Lemma COLOUR_sound c m :
  Re.search COLOUR c = Some m →
  ∃ g post, legend_ok g = true ∧ c = legend_text g +:+ post ∧
    Re.group COLOUR m "symbol" = String (l_symbol g) EmptyString ∧
    Re.group COLOUR m "value" = l_value g.
Proof.
  unfold COLOUR. rewrite search_bol. intros He.
  apply exec_sound in He as [Hp [post ->]].
  do 18 (destruct m as [|? m]; [simpl in Hp; tauto|]).
  destruct m; [|simpl in Hp; tauto].
  simpl in Hp.
  destruct Hp as ([_ ->] & Hpre & -> & (sym & Hsym & ->) & [Hn1 H1] & -> & [Hn2 H2] & -> &
    [Hn3 H3] & H4 & -> & H5 & -> & -> & H6 & -> & H7 & -> & _).
  exists (mk_legend s0 sym s3 s5 s7 s8 s10 s13 s15), post.
  split; [|split; [|split]].
  - unfold legend_ok; simpl.
    rewrite Hpre, Hsym, H1, H2, H3, H4, H5, H6, H7.
    apply nonempty_ne in Hn1, Hn2, Hn3. by rewrite Hn1, Hn2, Hn3.
  - unfold legend_text; simpl.
    by rewrite ?app_nil_l_s, ?app_cons_s, ?app_assoc_s, ?app_cons_s, ?app_nil_l_s.
  - simpl. by rewrite ?app_nil_l_s, ?app_cons_s, ?app_nil_r_s.
  - simpl. by rewrite ?app_nil_l_s, ?app_cons_s, ?app_nil_r_s.
Qed.

Lemma COLOUR_complete g post :
  legend_ok g = true → is_Some (Re.search COLOUR (legend_text g +:+ post)).
Proof.
  unfold legend_ok. rewrite !andb_true_iff, !nonempty_ne.
  intros [[[[[[[[[[[Hpre Hsym] Hn1] H1] Hn2] H2] Hn3] H3] H4] H5] H6] H7].
  unfold COLOUR. rewrite search_bol.
  pose (segs := [EmptyString; l_pre g; String dquote EmptyString;
    String (l_symbol g) EmptyString; l_ws1 g; String "c" EmptyString; l_ws2 g;
    String "#" EmptyString; l_hex g; l_ws3 g; String dquote EmptyString; l_ws4 g;
    String "/" EmptyString; String "*" EmptyString; l_ws5 g; String dquote EmptyString;
    l_value g; String dquote EmptyString]).
  assert (Hj : legend_text g +:+ post = join segs +:+ post).
  { unfold legend_text, segs; simpl.
    by rewrite ?app_nil_l_s, ?app_cons_s, ?app_assoc_s, ?app_cons_s, ?app_nil_l_s. }
  rewrite Hj. apply exec_complete. simpl. eauto 30.
Qed.

Lemma legend_line_search c : legend_line c ↔ is_Some (Re.search COLOUR c).
Proof.
  split.
  - intros (g & post & Hok & ->). by apply COLOUR_complete.
  - intros [m Hm]. apply COLOUR_sound in Hm as (g & post & Hok & -> & _).
    by exists g, post.
Qed.

(** ** The symbol and the value of a legend line *)

Lemma count_quotes_app s t : count_quotes (s +:+ t) = (count_quotes s + count_quotes t)%nat.
Proof.
  induction s as [|a s IH]; [done|]. rewrite app_cons_s. simpl. rewrite IH. lia.
Qed.

Lemma count_quotes_class (p : ascii → bool) w :
  p dquote = false → all_in p w = true → count_quotes w = 0%nat.
Proof.
  intros Hp. induction w as [|a w IH]; simpl; [done|].
  intros [Ha Hw]%andb_prop. destruct (Ascii.eqb_spec a dquote) as [->|]; [congruence|].
  by apply IH.
Qed.

(** ** Greedy repetitions *)

Lemma app_inv_head_s (s t t' : string) : s +:+ t = s +:+ t' → t = t'.
Proof. induction s as [|a s IH]; [done|]. rewrite !app_cons_s. intros [= H]. auto. Qed.

Lemma all_in_app p s t : all_in p (s +:+ t) = all_in p s && all_in p t.
Proof.
  induction s as [|a s IH]; [done|]. rewrite app_cons_s. simpl. by rewrite IH, andb_assoc.
Qed.

Lemma join_app l1 l2 : join (l1 ++ l2) = join l1 +:+ join l2.
Proof. induction l1 as [|w l1 IH]; [done|]. simpl. by rewrite IH, app_assoc_s. Qed.

(** The loop takes the longest run of the class after which the
    continuation matches. *)
Lemma rep_greedy {A} p (k : nat → string → option A) s : ∀ pos w r,
  Re.rep p k pos s = Some (w, r) →
  ∀ w' s', s = w' +:+ s' → all_in p w' = true →
    (String.length w < String.length w')%nat →
    k (pos + String.length w')%nat s' = None.
Proof.
  induction s as [|a s IH]; intros pos w r Hrep w' s' Hs Hall Hlen.
  - destruct w' as [|a' w']; [|done].
    simpl in Hlen. lia.
  - destruct w' as [|a' w']; [simpl in Hlen; lia|].
    rewrite app_cons_s in Hs. injection Hs as <- ->.
    simpl in Hall. apply andb_prop in Hall as [Hp Hall].
    simpl in Hrep. rewrite Hp in Hrep.
    destruct (Re.rep p k (S pos) (w' +:+ s')) as [[w0 r0]|] eqn:Hrec.
    + injection Hrep as <- <-. simpl. rewrite <-Nat.add_succ_comm.
      eapply IH; [exact Hrec|done|done|simpl in Hlen; lia].
    + simpl. rewrite <-Nat.add_succ_comm.
      destruct (k (S pos + String.length w')%nat s') eqn:Hk; [|done].
      destruct (rep_complete p k w' (S pos) s' Hall) as [? Hsome]; [by eexists|].
      congruence.
Qed.

(** A match of a pattern in two parts is a match of the first part
    followed by a match of the second on what is left. *)
Lemma exec_app pat1 pat2 : ∀ pos s segs,
  Re.exec (pat1 ++ pat2) pos s = Some segs →
  ∃ segs1 segs2 s2,
    segs = segs1 ++ segs2 ∧ length segs1 = length pat1 ∧ s = join segs1 +:+ s2 ∧
    Re.exec pat2 (pos + String.length (join segs1))%nat s2 = Some segs2.
Proof.
  induction pat1 as [|a pat1 IH]; intros pos s segs; simpl.
  - intros H. exists [], segs, s. simpl. by rewrite Nat.add_0_r.
  - destruct a as [|c|p|p|p].
    + destruct (Nat.eqb_spec pos 0) as [->|]; [|done].
      destruct (Re.exec (pat1 ++ pat2) 0 s) as [r|] eqn:He; intros [= <-].
      apply IH in He as (segs1 & segs2 & s2 & -> & Hl & -> & He).
      exists (EmptyString :: segs1), segs2, s2. simpl. by rewrite Hl.
    + destruct s as [|x s]; [done|].
      destruct (Ascii.eqb_spec x c) as [->|]; [|done].
      destruct (Re.exec (pat1 ++ pat2) (S pos) s) as [r|] eqn:He; intros [= <-].
      apply IH in He as (segs1 & segs2 & s2 & -> & Hl & -> & He).
      exists (String c EmptyString :: segs1), segs2, s2. simpl. rewrite Hl.
      rewrite app_cons_s, app_nil_l_s. simpl. by rewrite <-Nat.add_succ_comm.
    + destruct s as [|x s]; [done|].
      destruct (p x) eqn:Hx; [|done].
      destruct (Re.exec (pat1 ++ pat2) (S pos) s) as [r|] eqn:He; intros [= <-].
      apply IH in He as (segs1 & segs2 & s2 & -> & Hl & -> & He).
      exists (String x EmptyString :: segs1), segs2, s2. simpl. rewrite Hl.
      rewrite app_cons_s, app_nil_l_s. simpl. by rewrite <-Nat.add_succ_comm.
    + destruct (Re.rep p (Re.exec (pat1 ++ pat2)) pos s) as [[w r]|] eqn:Hr; intros [= <-].
      apply rep_sound in Hr as (Hall & s' & -> & He).
      apply IH in He as (segs1 & segs2 & s2 & -> & Hl & -> & He).
      exists (w :: segs1), segs2, s2. simpl. rewrite Hl, app_assoc_s, length_app_s.
      by rewrite Nat.add_assoc.
    + destruct s as [|x s]; [done|].
      destruct (p x) eqn:Hx; [|done].
      destruct (Re.rep p (Re.exec (pat1 ++ pat2)) (S pos) s) as [[w r]|] eqn:Hr;
        intros [= <-].
      apply rep_sound in Hr as (Hall & s' & -> & He).
      apply IH in He as (segs1 & segs2 & s2 & -> & Hl & -> & He).
      exists (String x w :: segs1), segs2, s2. simpl. rewrite Hl.
      rewrite !app_cons_s, app_assoc_s, length_app_s.
      by rewrite <-Nat.add_succ_comm, Nat.add_assoc.
Qed.

(** A greedy repetition followed by a literal at the end of a pattern ends
    at the last place where the literal follows characters of the class. *)
Lemma exec_star_chr p c pos s segs :
  Re.exec [Re.Star p; Re.Chr c] pos s = Some segs →
  ∃ w rest, segs = [w; String c EmptyString] ∧ s = w +:+ String c rest ∧
    ∀ w' rest', s = w' +:+ String c rest' → all_in p w' = true →
      (String.length w' ≤ String.length w)%nat.
Proof.
  change (Re.exec [Re.Star p; Re.Chr c] pos s)
    with ((λ wr : string * list string, wr.1 :: wr.2)
            <$> Re.rep p (Re.exec [Re.Chr c]) pos s).
  destruct (Re.rep p (Re.exec [Re.Chr c]) pos s) as [[w r]|] eqn:Hr; intros [= <-].
  pose proof Hr as Hr'. apply rep_sound in Hr' as (Hall & s' & -> & He).
  destruct s' as [|x rest]; [done|]. simpl in He.
  destruct (Ascii.eqb_spec x c) as [->|]; [|done]. injection He as <-.
  exists w, rest. split; [done|]. split; [done|].
  intros w' rest' Hs Hall'. apply Nat.nlt_ge. intros Hlt.
  pose proof (rep_greedy _ _ _ _ _ _ Hr w' (String c rest') Hs Hall' Hlt) as Hnone.
  simpl in Hnone. by rewrite Ascii.eqb_refl in Hnone.
Qed.

Lemma exec_bol_star p pat s segs :
  Re.exec (Re.Bol :: Re.Star p :: pat) 0 s = Some segs →
  ∃ w r, segs = EmptyString :: w :: r ∧ Re.rep p (Re.exec pat) 0 s = Some (w, r).
Proof.
  change (Re.exec (Re.Bol :: Re.Star p :: pat) 0 s)
    with ((λ r, EmptyString :: r)
            <$> ((λ wr : string * list string, wr.1 :: wr.2)
                   <$> Re.rep p (Re.exec pat) 0 s)).
  destruct (Re.rep p (Re.exec pat) 0 s) as [[w r]|]; intros [= <-]. by eexists _, _.
Qed.

(** The match of [COLOUR] that [search] returns is the legend entry that
    starts latest in the line, and its value runs up to the last quote mark
    that is not beyond a line end. *)
Lemma COLOUR_greedy c m :
  Re.search COLOUR c = Some m →
  ∃ g post, legend_ok g = true ∧ c = legend_text g +:+ post ∧
    Re.group COLOUR m "symbol" = String (l_symbol g) EmptyString ∧
    Re.group COLOUR m "value" = l_value g ∧
    (∀ g' post', legend_ok g' = true → c = legend_text g' +:+ post' →
       (String.length (l_pre g') ≤ String.length (l_pre g))%nat) ∧
    (∀ post1 post2, post = post1 +:+ String dquote post2 → all_in Re.any post1 = false).
Proof.
  unfold COLOUR. rewrite search_bol. intros He.
  pose proof He as Hpre_max. pose proof He as Hval_max.
  apply exec_sound in He as [Hp [post ->]].
  do 18 (destruct m as [|? m]; [simpl in Hp; tauto|]).
  destruct m; [|simpl in Hp; tauto].
  simpl in Hp.
  destruct Hp as ([_ ->] & Hpre & -> & (sym & Hsym & ->) & [Hn1 H1] & -> & [Hn2 H2] & -> &
    [Hn3 H3] & H4 & -> & H5 & -> & -> & H6 & -> & H7 & -> & _).
  exists (mk_legend s0 sym s3 s5 s7 s8 s10 s13 s15), post.
  split; [|split; [|split; [|split; [|split]]]].
  - unfold legend_ok; simpl.
    rewrite Hpre, Hsym, H1, H2, H3, H4, H5, H6, H7.
    apply nonempty_ne in Hn1, Hn2, Hn3. by rewrite Hn1, Hn2, Hn3.
  - unfold legend_text; simpl.
    by rewrite ?app_nil_l_s, ?app_cons_s, ?app_assoc_s, ?app_cons_s, ?app_nil_l_s.
  - simpl. by rewrite ?app_nil_l_s, ?app_cons_s, ?app_nil_r_s.
  - simpl. by rewrite ?app_nil_l_s, ?app_cons_s, ?app_nil_r_s.
  - intros g' post' Hok' Heq. cbn [l_pre]. apply Nat.nlt_ge. intros Hlt.
    set (pat16 := [Re.Chr dquote; Re.Cls Re.symbol_class; Re.Plus Re.space; Re.Chr "c";
                   Re.Plus Re.space; Re.Chr "#"; Re.Plus Re.hex_class; Re.Star Re.space;
                   Re.Chr dquote; Re.Star Re.space; Re.Chr "/"; Re.Chr "*";
                   Re.Star Re.space; Re.Chr dquote; Re.Star Re.any; Re.Chr dquote]).
    apply (exec_bol_star Re.any pat16) in Hpre_max as (w & r & [= <- _] & Hrep).
    unfold legend_ok in Hok'. rewrite !andb_true_iff, !nonempty_ne in Hok'.
    destruct Hok' as [[[[[[[[[[[Hpre' Hsym'] Hn1'] H1'] Hn2'] H2'] Hn3'] H3'] H4'] H5'] H6'] H7'].
    pose (segs' := [String dquote EmptyString;
      String (l_symbol g') EmptyString; l_ws1 g'; String "c" EmptyString; l_ws2 g';
      String "#" EmptyString; l_hex g'; l_ws3 g'; String dquote EmptyString; l_ws4 g';
      String "/" EmptyString; String "*" EmptyString; l_ws5 g'; String dquote EmptyString;
      l_value g'; String dquote EmptyString]).
    assert (Hj : legend_text g' +:+ post' = l_pre g' +:+ (join segs' +:+ post')).
    { unfold legend_text, segs'; simpl.
      by rewrite ?app_nil_l_s, ?app_cons_s, ?app_assoc_s, ?app_cons_s, ?app_nil_l_s. }
    rewrite Hj in Heq.
    pose proof (rep_greedy _ _ _ _ _ _ Hrep (l_pre g') _ Heq Hpre' Hlt) as Hnone.
    destruct (exec_complete pat16 (0 + String.length (l_pre g')) segs' post') as [? Hsome];
      [simpl; eauto 30|].
    congruence.
  - intros post1 post2 ->.
    destruct (all_in Re.any post1) eqn:Hall; [exfalso|done].
    set (pat1 := [Re.Bol; Re.Star Re.any; Re.Chr dquote; Re.Cls Re.symbol_class;
                  Re.Plus Re.space; Re.Chr "c"; Re.Plus Re.space; Re.Chr "#";
                  Re.Plus Re.hex_class; Re.Star Re.space; Re.Chr dquote; Re.Star Re.space;
                  Re.Chr "/"; Re.Chr "*"; Re.Star Re.space; Re.Chr dquote]).
    apply (exec_app pat1 [Re.Star Re.any; Re.Chr dquote]) in Hval_max
      as (segs1 & segs2 & s2 & Hsegs & Hl & Hs & He2).
    match type of Hsegs with
    | ?a0 :: ?a1 :: ?a2 :: ?a3 :: ?a4 :: ?a5 :: ?a6 :: ?a7 :: ?a8 :: ?a9 :: ?a10 :: ?a11 ::
      ?a12 :: ?a13 :: ?a14 :: ?a15 :: ?rest = _ =>
        change ([a0; a1; a2; a3; a4; a5; a6; a7; a8; a9; a10; a11; a12; a13; a14; a15]
                ++ rest = segs1 ++ segs2) in Hsegs
    end.
    apply app_inj_1 in Hsegs as [<- <-]; [|by rewrite Hl].
    apply exec_star_chr in He2 as (w & rest & [= <-] & -> & Hmax).
    match type of Hs with
    | join ?l +:+ ?t = join ?l1 +:+ ?u =>
        assert (Hs' : join l1 +:+ (join [s15; String dquote EmptyString] +:+ t)
                      = join l1 +:+ u)
          by (rewrite <-Hs, <-app_assoc_s, <-join_app; reflexivity)
    end.
    clear Hs. apply app_inv_head_s in Hs' as Hs. simpl in Hs.
    rewrite ?app_assoc_s, ?app_cons_s, ?app_nil_l_s in Hs.
    specialize (Hmax (s15 +:+ String dquote post1) post2).
    rewrite length_app_s in Hmax. simpl in Hmax.
    assert (String.length s15 + S (String.length post1) ≤ String.length s15)%nat; [|lia].
    apply Hmax.
    + rewrite <-Hs. by rewrite ?app_assoc_s, ?app_cons_s.
    + rewrite all_in_app, H7. simpl. by rewrite Hall.
Qed.

(** C6 (amended): every line that [XPM.col] accepts holds a legend entry:
    a quote mark, one character of [[ a-zA-Z]], white space, [c], white
    space, [#] and hex digits, optional white space, a quote mark, optional
    white space, the comment opener, optional white space, a quote mark, a
    text without a line end and a quote mark.  The symbol is the single
    character right after the opening quote mark of the last place of the
    line where such an entry starts, which need not be the first quote mark
    of the line; the value is the text between the quote mark that follows
    the comment opener of that entry and the last quote mark of the line
    (no quote mark follows before a line end).  When the line holds exactly
    four quote marks these are the quote marks of the entry: the symbol is
    the character right after the first one and the value is the text
    between the third and the fourth. *)
Theorem C6_symbol_and_value c self sym val self' :
  col c self = (inr (sym, val), self') →
  ∃ g post,
    legend_ok g = true ∧ c = legend_text g +:+ post ∧
    sym = String (l_symbol g) EmptyString ∧ val = l_value g ∧
    (∀ g' post', legend_ok g' = true → c = legend_text g' +:+ post' →
       (String.length (l_pre g') ≤ String.length (l_pre g))%nat) ∧
    (∀ post1 post2, post = post1 +:+ String dquote post2 → all_in Re.any post1 = false) ∧
    (count_quotes c = 4%nat →
     count_quotes (l_pre g) = 0%nat ∧ count_quotes val = 0%nat ∧ count_quotes post = 0%nat).
Proof.
  unfold col. destruct (Re.search COLOUR c) as [mo|] eqn:Hmo; [|done].
  apply COLOUR_greedy in Hmo as (g & post & Hok & -> & Hsym & Hval & Hlast & Hend).
  intros H. unfold mbind, M_bind, log, mret, M_ret in H.
  assert (Hs : Re.group COLOUR mo "symbol" = sym) by congruence.
  assert (Hv : Re.group COLOUR mo "value" = val) by congruence.
  clear H. rewrite Hsym in Hs. rewrite Hval in Hv. subst sym val.
  exists g, post.
  split; [done|]. split; [done|]. split; [done|]. split; [done|].
  split; [exact Hlast|]. split; [exact Hend|].
  unfold legend_ok in Hok. rewrite !andb_true_iff in Hok.
  destruct Hok as [[[[[[[[[[[Hpre Hx] Hn1] H1] Hn2] H2] Hn3] H3] H4] H5] H6] H7].
  set (mid := l_ws1 g +:+ String "c" (l_ws2 g +:+ String "#" (l_hex g +:+ l_ws3 g))).
  assert (Hmid : count_quotes mid = 0%nat).
  { unfold mid. rewrite !count_quotes_app. simpl. rewrite !count_quotes_app. simpl.
    rewrite !count_quotes_app.
    rewrite (count_quotes_class Re.space (l_ws1 g)), (count_quotes_class Re.space (l_ws2 g)),
      (count_quotes_class Re.hex_class (l_hex g)), (count_quotes_class Re.space (l_ws3 g));
      done. }
  assert (Hx' : Ascii.eqb (l_symbol g) dquote = false).
  { destruct (Ascii.eqb_spec (l_symbol g) dquote) as [Heq|]; [|done].
    rewrite Heq in Hx. by vm_compute in Hx. }
  assert (Htext : legend_text g +:+ post
    = l_pre g +:+ String dquote (String (l_symbol g) (mid +:+ String dquote (l_ws4 g +:+
        String "/" (String "*" (l_ws5 g +:+ String dquote (l_value g +:+
        String dquote post))))))).
  { unfold legend_text, mid.
    by repeat (rewrite ?app_assoc_s, ?app_cons_s, ?app_nil_l_s). }
  rewrite Htext. rewrite count_quotes_app. simpl. rewrite Hx'.
  rewrite count_quotes_app. simpl. rewrite count_quotes_app. simpl.
  rewrite count_quotes_app. simpl. rewrite count_quotes_app. simpl.
  rewrite Hmid, (count_quotes_class Re.space (l_ws4 g)),
    (count_quotes_class Re.space (l_ws5 g)) by done.
  lia.
Qed.

(** ** What a method leaves untouched *)

Lemma unchanged_refl self : unchanged self self.
Proof. repeat split. exists []. by rewrite app_nil_r. Qed.

Lemma unchanged_trans s1 s2 s3 : unchanged s1 s2 → unchanged s2 s3 → unchanged s1 s3.
Proof.
  intros (Ha & Hb & l & Hl) (Ha' & Hb' & l' & Hl'). repeat split; [congruence..|].
  exists (l ++ l'). by rewrite Hl', Hl, app_assoc.
Qed.

Lemma bind_inv {A B} (m : M A) (f : A → M B) self r self'' :
  (m ≫= f) self = (r, self'') →
  (∃ e, m self = (inl e, self'') ∧ r = inl e) ∨
  (∃ a self', m self = (inr a, self') ∧ f a self' = (r, self'')).
Proof.
  unfold mbind, M_bind. destruct (m self) as [[e|a] self'].
  - intros [= <- <-]. left. by exists e.
  - intros H. right. by exists a, self'.
Qed.

Lemma bind_inl {A B} (m : M A) (f : A → M B) self e self' :
  m self = (inl e, self') → (m ≫= f) self = (inl e, self').
Proof. unfold mbind, M_bind. by intros ->. Qed.

Lemma bind_inr {A B} (m : M A) (f : A → M B) self a self' :
  m self = (inr a, self') → (m ≫= f) self = f a self'.
Proof. unfold mbind, M_bind. by intros ->. Qed.

Lemma frames_ret {A} (a : A) : frames (mret a).
Proof. intros self r self' [= <- <-]. apply unchanged_refl. Qed.

Lemma frames_raise {A} e : frames (@raise A e).
Proof. intros self r self' [= <- <-]. apply unchanged_refl. Qed.

Lemma frames_lift {A} (x : exn + A) : frames (lift x).
Proof. intros self r self' [= <- <-]. apply unchanged_refl. Qed.

Lemma frames_get : frames get_autoconvert.
Proof. intros self r self' [= <- <-]. apply unchanged_refl. Qed.

Lemma frames_log lv fmt a : frames (log lv fmt a).
Proof. intros self r self' [= <- <-]. repeat split. by eexists. Qed.

Lemma frames_bind {A B} (m : M A) (f : A → M B) :
  frames m → (∀ a, frames (f a)) → frames (m ≫= f).
Proof.
  intros Hm Hf self r self'' [(e & H & _)|(a & self' & H & H')]%bind_inv.
  - by eapply Hm.
  - eapply unchanged_trans; [by eapply Hm|by eapply Hf].
Qed.

Create HintDb frames.
#[local] Hint Resolve frames_ret frames_raise frames_lift frames_get frames_log
  frames_bind : frames.

Lemma frames_col c : frames (col c).
Proof. unfold col. destruct (Re.search COLOUR c); auto with frames. Qed.

Lemma frames_read_dims dim : frames (read_dims dim).
Proof. unfold read_dims. repeat case_match; auto with frames. Qed.

Lemma frames_read_colours n : ∀ xpm, frames (read_colours n xpm).
Proof.
  induction n as [|n IH]; intros xpm; simpl; [auto with frames|].
  destruct (readline xpm) as [c xpm'].
  apply frames_bind; [apply frames_col|]. intros p.
  apply frames_bind; [apply IH|]. intros [ps xpm'']. auto with frames.
Qed.

(** ** Arrays *)

Lemma zeros_ok alloc n0 n1 d :
  allocates alloc n0 n1 d → ∃ data, Np.zeros alloc n0 n1 d = inr data.
Proof.
  intros (H0 & H1 & Ha). unfold Np.zeros.
  destruct (Z.ltb_spec n0 0); [lia|]. destruct (Z.ltb_spec n1 0); [lia|].
  destruct (Z.ltb_spec Np.max_intp n0); [lia|].
  destruct (Z.ltb_spec Np.max_intp n1); [lia|].
  simpl. rewrite Ha. by eexists.
Qed.

Lemma zeros_allocates alloc n0 n1 d data :
  Np.zeros alloc n0 n1 d = inr data → allocates alloc n0 n1 d.
Proof.
  unfold Np.zeros, allocates.
  destruct (Z.ltb_spec n0 0); [done|]. destruct (Z.ltb_spec n1 0); [done|].
  destruct (Z.ltb_spec Np.max_intp n0); [done|].
  destruct (Z.ltb_spec Np.max_intp n1); [done|].
  simpl. destruct (alloc n0 n1 d); [|done..]. intros _. repeat split; lia.
Qed.

Lemma zeros_inv alloc n0 n1 d data :
  Np.zeros alloc n0 n1 d = inr data →
  wf data ∧ Np.shape data = (n0, n1) ∧ Np.dtype_of data = d ∧
  ∀ i j, (i < Z.to_nat n0)%nat → (j < Z.to_nat n1)%nat →
    Np.item data i j = Some (Np.zero d).
Proof.
  unfold Np.zeros.
  destruct (Z.ltb_spec n0 0); [done|]. destruct (Z.ltb_spec n1 0); [done|].
  destruct (Z.ltb_spec Np.max_intp n0); [done|].
  destruct (Z.ltb_spec Np.max_intp n1); [done|].
  simpl. destruct (alloc n0 n1 d); [|done..].
  intros [= <-]. unfold wf, Np.item. simpl.
  repeat split; [done..|by rewrite length_replicate| |].
  - apply Forall_replicate. by rewrite length_replicate.
  - intros i j Hi Hj. rewrite lookup_replicate_2 by done. simpl.
    by rewrite lookup_replicate_2.
Qed.

Lemma set_column_inv fr data j vals data' :
  Np.set_column fr data j vals = inr data' →
  Np.shape data' = Np.shape data ∧ Np.dtype_of data' = Np.dtype_of data.
Proof.
  unfold Np.set_column. destruct (Np.shape data) as [n0 n1] eqn:Hs.
  destruct ((j <? - n1) || (n1 <=? j)); [done|].
  destruct (decide _).
  - intros [= <-]. by simpl.
  - destruct vals as [|v [|??]]; [done| |done]. intros [= <-]. by simpl.
Qed.

Lemma zip_insert_lookup {A} (f : A → A) (j : nat) (cells : list (list A)) (vs : list A)
    (i j' : nat) :
  length vs = length cells → j' ≠ j →
  zip_with (λ r v, <[j := f v]> r) cells vs !! i ≫= (λ r, r !! j')
  = cells !! i ≫= (λ r, r !! j').
Proof.
  revert cells i. induction vs as [|v vs IH]; intros [|r cells] i Hlen Hj; try done.
  destruct i as [|i]; simpl.
  - by rewrite list_lookup_insert_ne.
  - apply IH; [by inversion Hlen|done].
Qed.

Lemma zip_insert_wf {A} (f : A → A) (j n : nat) (cells : list (list A)) (vs : list A) :
  length vs = length cells → Forall (λ r, length r = n) cells →
  length (zip_with (λ r v, <[j := f v]> r) cells vs) = length cells ∧
  Forall (λ r, length r = n) (zip_with (λ r v, <[j := f v]> r) cells vs).
Proof.
  revert cells. induction vs as [|v vs IH]; intros [|r cells] Hlen Hall; try done.
  inversion Hlen. inversion_clear Hall. destruct (IH cells) as [Hl Hf]; [done..|].
  simpl. split; [by rewrite Hl|]. constructor; [by rewrite length_insert|done].
Qed.

(** Storing a column in range: the other columns are not touched. *)
Lemma set_column_ok fr data j vals :
  wf data → 0 ≤ j < (Np.shape data).2 →
  (Z.of_nat (length vals) = (Np.shape data).1 ∨ length vals = 1%nat) →
  ∃ data', Np.set_column fr data j vals = inr data' ∧ wf data' ∧
    ∀ i j', j' ≠ Z.to_nat j → Np.item data' i j' = Np.item data i j'.
Proof.
  intros (H0 & H1 & Hlen & Hrows) Hj Hvals. unfold Np.set_column, wf, Np.item.
  destruct (Np.shape data) as [n0 n1] eqn:Hs. simpl in *.
  destruct (Z.ltb_spec j (- n1)); [lia|]. destruct (Z.leb_spec n1 j); [lia|]. simpl.
  destruct (Z.ltb_spec j 0); [lia|].
  assert (Hstore : ∀ vs, length vs = length (Np.cells data) →
    ∃ data', inr {| Np.shape := (n0, n1); Np.dtype_of := Np.dtype_of data;
        Np.cells := zip_with (λ r v, <[Z.to_nat j := Np.cast fr (Np.dtype_of data) v]> r)
                             (Np.cells data) vs |} = inr (A:=exn) data' ∧
      (0 ≤ (Np.shape data').1 ∧ 0 ≤ (Np.shape data').2 ∧
       length (Np.cells data') = Z.to_nat (Np.shape data').1 ∧
       Forall (λ r, length r = Z.to_nat (Np.shape data').2) (Np.cells data')) ∧
      ∀ i j', j' ≠ Z.to_nat j →
        Np.cells data' !! i ≫= (λ r, r !! j') = Np.cells data !! i ≫= (λ r, r !! j')).
  { intros vs Hvs. eexists. split; [reflexivity|]. simpl.
    destruct (zip_insert_wf (Np.cast fr (Np.dtype_of data)) (Z.to_nat j) (Z.to_nat n1)
      (Np.cells data) vs Hvs Hrows) as [Hl Hf].
    split; [by rewrite Hl|]. intros i j' Hne. by apply zip_insert_lookup. }
  destruct (decide _) as [Heq|Hne].
  - apply Hstore. lia.
  - destruct Hvals as [?|Hone]; [done|].
    destruct vals as [|v [|??]]; [done| |done].
    apply Hstore. rewrite length_replicate. lia.
Qed.

(** ** Data rows *)

Lemma lookup_all_ok colors s nb ks :
  (∀ k, k ∈ ks → is_Some (colors !! Py.slice s k (k + nb))) →
  ∃ vals, lookup_all colors s nb ks = inr vals ∧ length vals = length ks.
Proof.
  induction ks as [|k ks IH]; intros Hks; simpl; [by exists []|].
  destruct (Hks k) as [v ->]; [by left|].
  destruct IH as (vs & -> & Hlen); [intros k' Hk'; apply Hks; by right|].
  exists (v :: vs). by rewrite <-Hlen.
Qed.


Lemma lookup_all_inr colors s nb ks vals :
  lookup_all colors s nb ks = inr vals →
  Forall (λ k, is_Some (colors !! Py.slice s k (k + nb))) ks.
Proof.
  revert vals. induction ks as [|k ks IH]; intros vals; simpl; [by constructor|].
  destruct (colors !! Py.slice s k (k + nb)) as [v|] eqn:Hk; [|done].
  destruct (lookup_all colors s nb ks) as [e|vs]; [done|]. intros _.
  constructor; [by eexists|by eapply IH].
Qed.

(** ** Slices and ranges *)

Lemma length_substring s : ∀ n m,
  String.length (substring n m s) = Nat.min m (String.length s - n).
Proof.
  induction s as [|a s IH]; intros [|n] [|m]; cbn [substring String.length];
    rewrite ?IH; lia.
Qed.


(** The length of [s[i:i+n]] for an offset and a width that are not negative. *)
Lemma slice_len s i n :
  0 ≤ i → 0 ≤ n →
  Py.len (Py.slice s i (i + n)) = Z.max 0 (Z.min (i + n) (Py.len s) - Z.min i (Py.len s)).
Proof.
  intros Hi Hn. unfold Py.slice, Py.clip, Py.len. rewrite length_substring.
  destruct (Z.ltb_spec i 0); [lia|]. destruct (Z.ltb_spec (i + n) 0); lia.
Qed.


Lemma slice_len0 s n :
  0 ≤ n → Py.len (Py.slice s 0 n) = Z.min n (Py.len s).
Proof.
  intros Hn. change n with (0 + n) at 1. rewrite slice_len by lia.
  unfold Py.len. lia.
Qed.


Lemma xrange_head nx nb :
  0 < nb → 0 < nx → ∃ ks, Py.xrange 0 nx nb = 0 :: ks.
Proof.
  intros Hnb Hnx. unfold Py.xrange, Py.xrange_len.
  destruct (Z.ltb_spec 0 nb); [|lia]. destruct (Z.ltb_spec 0 nx); [|lia].
  assert (0 ≤ (nx - 0 - 1) / nb) by (apply Z.div_pos; lia).
  destruct (Z.to_nat ((nx - 0 - 1) / nb + 1)) as [|n] eqn:Hn; [lia|].
  simpl. by eexists.
Qed.

(** ** The keys of a palette are single characters *)

Lemma dict_lookup_is_Some {V} (pairs : list (string * V)) k :
  is_Some (dict pairs !! k) → k ∈ pairs.*1.
Proof.
  unfold dict.
  assert (H : ∀ d : gmap string V,
    is_Some (foldl (λ d p, <[p.1 := p.2]> d) d pairs !! k) →
    is_Some (d !! k) ∨ k ∈ pairs.*1).
  { induction pairs as [|p pairs IH]; intros d; simpl; [by left|].
    intros [Hd|Hin]%IH; [|right; by right].
    apply lookup_insert_is_Some in Hd as [<-|[_ Hd]]; [right; by left|by left]. }
  intros [Hd|Hin]%H; [|done]. rewrite lookup_empty in Hd. by destruct Hd.
Qed.

Lemma legend_pair_symbol c sym val :
  legend_pair c = Some (sym, val) → String.length sym = 1%nat.
Proof.
  unfold legend_pair. destruct (Re.search COLOUR c) as [mo|] eqn:Hmo; [|done].
  apply COLOUR_sound in Hmo as (g & post & _ & _ & Hsym & _).
  intros H.
  change (Some (Re.group COLOUR mo "symbol", Re.group COLOUR mo "value") = Some (sym, val))
    in H.
  assert (Hs : Re.group COLOUR mo "symbol" = sym) by congruence.
  by rewrite <-Hs, Hsym.
Qed.

Lemma legend_pairs_symbols pal : ∀ pairs,
  mapM legend_pair pal = Some pairs → Forall (λ k, String.length k = 1%nat) pairs.*1.
Proof.
  induction pal as [|c pal IH]; intros pairs; simpl.
  - by intros [= <-].
  - destruct (legend_pair c) as [[sym val]|] eqn:Hc; [|done]. simpl.
    destruct (mapM legend_pair pal) as [ps|]; [|done]. intros [= <-].
    simpl. constructor; [by eapply legend_pair_symbol|by apply IH].
Qed.

(** ** The scan for the marker *)

Lemma last_line_snoc meta l : last_line (meta ++ [l]) = l.
Proof. unfold last_line. by rewrite last_snoc. Qed.

Lemma scan_meta_diverges fuel : ∀ meta xpm,
  no_marker (last_line meta) → Forall no_marker xpm → scan_meta fuel meta xpm = None.
Proof.
  induction fuel as [|fuel IH]; intros meta xpm Hm Hx; simpl; [done|].
  rewrite Hm. destruct xpm as [|x xpm]; simpl.
  - apply IH; [by rewrite last_line_snoc|done].
  - inversion_clear Hx. apply IH; [by rewrite last_line_snoc|done].
Qed.

Lemma scan_meta_finds pre : ∀ meta m rest fuel,
  no_marker (last_line meta) → Forall no_marker pre → Py.startswith m marker = true →
  (length pre + 1 < fuel)%nat →
  scan_meta fuel meta (pre ++ m :: rest) = Some (meta ++ pre ++ [m], rest).
Proof.
  induction pre as [|x pre IH]; intros meta m rest fuel Hm Hpre Hmark Hfuel.
  - destruct fuel as [|[|fuel]]; [simpl in Hfuel; lia..|].
    simpl. rewrite Hm. simpl. by rewrite last_line_snoc, Hmark.
  - destruct fuel as [|fuel]; [simpl in Hfuel; lia|].
    inversion_clear Hpre. simpl. rewrite Hm.
    rewrite IH; [|by rewrite last_line_snoc|done..|simpl in Hfuel; lia].
    by rewrite <-app_assoc.
Qed.

Lemma scan_meta_inv fuel : ∀ meta xpm meta' rest,
  scan_meta fuel meta xpm = Some (meta', rest) →
  (Py.startswith (last_line meta) marker = true ∧ rest = xpm) ∨
  (no_marker (last_line meta) ∧
   ∃ pre m, xpm = pre ++ m :: rest ∧ Forall no_marker pre ∧ Py.startswith m marker = true).
Proof.
  induction fuel as [|fuel IH]; intros meta xpm meta' rest; simpl; [done|].
  destruct (Py.startswith (last_line meta) marker) eqn:Hm.
  - intros [= <- <-]. by left.
  - intros H. right. split; [done|].
    destruct xpm as [|x xpm]; simpl in H; apply IH in H; rewrite last_line_snoc in H.
    + destruct H as [[H _]|[_ (pre & m & H & _)]]; [done|by destruct pre].
    + destruct H as [[H ->]|[Hx (pre & m & -> & Hpre & Hmark)]].
      * by exists [], x.
      * exists (x :: pre), m. split; [done|]. split; [by constructor|done].
Qed.

(** The marker line of a file is its first line that begins with the marker. *)
Lemma marker_split_unique pre : ∀ pre' m m' rest rest',
  pre ++ m :: rest = pre' ++ m' :: rest' →
  Forall no_marker pre → Py.startswith m marker = true →
  Forall no_marker pre' → Py.startswith m' marker = true →
  pre = pre' ∧ m = m' ∧ rest = rest'.
Proof.
  induction pre as [|x pre IH]; intros [|x' pre'] m m' rest rest' Heq Hpre Hm Hpre' Hm';
    simpl in Heq; simplify_eq.
  - done.
  - inversion_clear Hpre'. unfold no_marker in *. congruence.
  - inversion_clear Hpre. unfold no_marker in *. congruence.
  - inversion_clear Hpre. inversion_clear Hpre'.
    destruct (IH pre' m m' rest rest') as (-> & -> & ->); done.
Qed.

Section ReaderFacts.

Variable convert : string → Np.scalar.
Variable float_repr : float → string.
Variable alloc : Z → Z → Np.dtype → Np.answer.

#[local] Abbreviation palette := (palette convert).
#[local] Abbreviation header := (header convert).
#[local] Abbreviation returns := (returns convert float_repr alloc).
#[local] Abbreviation allocates := (allocates alloc).

Lemma frames_read_rows colors nx nb xpm : ∀ data iy,
  frames (read_rows float_repr colors nx nb xpm data iy).
Proof.
  induction xpm as [|line xpm IH]; intros data iy; simpl; [auto with frames|].
  destruct (Py.startswith line "/*"); [apply IH|].
  repeat (apply frames_bind; [auto with frames|]; intros ?). apply IH.
Qed.

Lemma frames_decode xpm : frames (decode convert float_repr alloc xpm).
Proof.
  unfold decode. destruct (readline xpm) as [dim xpm'].
  apply frames_bind; [apply frames_read_dims|]. intros [[[nx ny] nc] nb].
  apply frames_bind; [apply frames_read_colours|]. intros [pairs xpm''].
  apply frames_bind; [auto with frames|]. intros auto.
  apply frames_bind; [destruct auto; auto with frames|]. intros colors.
  apply frames_bind; [auto with frames|]. intros _.
  apply frames_bind; [destruct (nb =? 0); auto with frames|]. intros data.
  apply frames_bind; [auto with frames|]. intros _.
  apply frames_read_rows.
Qed.

Lemma parse_found pre m rest fuel self :
  Forall no_marker pre → Py.startswith m marker = true → (length pre < fuel)%nat →
  parse convert float_repr alloc fuel (pre ++ m :: rest) self
  = Some (parse_array convert float_repr alloc rest self).
Proof.
  intros Hpre Hmark Hfuel. unfold parse.
  destruct pre as [|x pre]; simpl.
  - destruct fuel as [|fuel]; [simpl in Hfuel; lia|]. simpl.
    unfold last_line. simpl. by rewrite Hmark.
  - inversion_clear Hpre.
    rewrite scan_meta_finds; [done| |done..|simpl in Hfuel; lia]. done.
Qed.

Lemma parse_inv fuel xpm self r :
  parse convert float_repr alloc fuel xpm self = Some r →
  ∃ pre m rest, xpm = pre ++ m :: rest ∧ Forall no_marker pre ∧
    Py.startswith m marker = true ∧ r = parse_array convert float_repr alloc rest self.
Proof.
  unfold parse. destruct (readline xpm) as [l xpm'] eqn:Hr.
  destruct (scan_meta fuel [l] xpm') as [[meta rest]|] eqn:Hs; [|done].
  intros [= <-]. apply scan_meta_inv in Hs. unfold last_line in Hs. simpl in Hs.
  destruct xpm as [|x xpm]; simpl in Hr; simplify_eq.
  - destruct Hs as [[H _]|[_ (pre & m & H & _)]]; [done|by destruct pre].
  - destruct Hs as [[H ->]|[Hx (pre & m & -> & Hpre & Hmark)]].
    + eexists [], _, _. by split; [reflexivity|].
    + eexists (_ :: pre), m, _. split; [reflexivity|]. split; [by constructor|done].
Qed.

Lemma parse_diverges fuel xpm self :
  Forall no_marker xpm → parse convert float_repr alloc fuel xpm self = None.
Proof.
  intros Hx. unfold parse. destruct xpm as [|x xpm]; simpl.
  - by rewrite scan_meta_diverges.
  - inversion_clear Hx. by rewrite scan_meta_diverges.
Qed.

Lemma returns_found pre m rest self :
  Forall no_marker pre → Py.startswith m marker = true →
  returns (pre ++ m :: rest) self (parse_array convert float_repr alloc rest self).
Proof. intros Hpre Hm. exists (S (length pre)). intros fuel Hf. apply parse_found; [done..|lia]. Qed.

Lemma returns_fun xpm self r1 r2 : returns xpm self r1 → returns xpm self r2 → r1 = r2.
Proof.
  intros [n1 H1] [n2 H2].
  specialize (H1 (n1 + n2)%nat ltac:(lia)). specialize (H2 (n1 + n2)%nat ltac:(lia)).
  congruence.
Qed.

(** An error leaves the object as it was, up to the logger. *)
Lemma parse_array_error rest self e self' :
  parse_array convert float_repr alloc rest self = (inl e, self') → unchanged self self'.
Proof.
  unfold parse_array. intros [(e' & H & _)|(data & self1 & H & H')]%bind_inv.
  - by eapply frames_decode.
  - by inversion H'.
Qed.

Lemma parse_array_ok rest self self' :
  parse_array convert float_repr alloc rest self = (inr (), self') →
  ∃ data self1, decode convert float_repr alloc rest self = (inr data, self1) ∧
    array self' = Some data ∧ autoconvert self' = autoconvert self.
Proof.
  unfold parse_array. intros [(e' & H & ?)|(data & self1 & H & H')]%bind_inv; [done|].
  exists data, self1. inversion H'; subst; simpl. repeat split; [done|].
  by eapply frames_decode.
Qed.

(** ** The stages of [decode] *)

Lemma col_ok c p self :
  legend_pair c = Some p → ∃ self', col c self = (inr p, self') ∧ unchanged self self'.
Proof.
  unfold legend_pair, col. destruct (Re.search COLOUR c) as [m|]; [|done].
  intros [= <-]. eexists. split; [reflexivity|]. repeat split. by eexists.
Qed.

Lemma col_fail c self :
  legend_pair c = None → col c self = (inl (ParseError c), logged self (fatal_record c)).
Proof. unfold legend_pair, col. by destruct (Re.search COLOUR c). Qed.

Lemma read_dims_eq dim self :
  read_dims dim self = match dims_of dim with
                       | Some d => (inr d, self)
                       | None => (inl ValueError, self)
                       end.
Proof. unfold read_dims, dims_of. by repeat case_match. Qed.

Lemma read_colours_ok pal body : ∀ pairs self,
  mapM legend_pair pal = Some pairs →
  ∃ self', read_colours (length pal) (pal ++ body) self = (inr (pairs, body), self') ∧
    unchanged self self'.
Proof.
  induction pal as [|c pal IH]; intros pairs self; simpl.
  - intros [= <-]. exists self. split; [done|apply unchanged_refl].
  - destruct (legend_pair c) as [p|] eqn:Hc; [|done]. simpl.
    destruct (mapM legend_pair pal) as [ps|] eqn:Hps; [|done]. intros [= <-].
    destruct (col_ok c p self Hc) as (self1 & Hcol & Hu1).
    destruct (IH ps self1 eq_refl) as (self2 & Hrc & Hu2).
    exists self2. split; [|by eapply unchanged_trans].
    rewrite (bind_inr _ _ _ _ _ Hcol), (bind_inr _ _ _ _ _ Hrc). done.
Qed.

Lemma read_colours_fail good : ∀ n tail c pairs self,
  mapM legend_pair good = Some pairs → (readline tail).1 = c → legend_pair c = None →
  (length good < n)%nat →
  ∃ self', read_colours n (good ++ tail) self = (inl (ParseError c), self') ∧
    unchanged self self' ∧ last (logger self') = Some (fatal_record c).
Proof.
  induction good as [|g good IH]; intros n tail c pairs self Hgood Htail Hc Hn;
    (destruct n as [|n]; [simpl in Hn; lia|]); simpl.
  - destruct (readline tail) as [c' tail'] eqn:Hr. simpl in Htail. subst c'.
    exists (logged self (fatal_record c)).
    rewrite (bind_inl _ _ _ _ _ (col_fail c self Hc)).
    split; [done|]. split; [|simpl; by rewrite last_snoc].
    repeat split. by eexists.
  - simpl in Hgood. destruct (legend_pair g) as [p|] eqn:Hg; [|done]. simpl in Hgood.
    destruct (mapM legend_pair good) as [ps|] eqn:Hps; [|done].
    destruct (col_ok g p self Hg) as (self1 & Hcol & Hu1).
    destruct (IH n tail c ps self1 eq_refl Htail Hc) as (self2 & Hrc & Hu2 & Hlast);
      [simpl in Hn; lia|].
    exists self2. split; [|split; [by eapply unchanged_trans|done]].
    rewrite (bind_inr _ _ _ _ _ Hcol). by rewrite (bind_inl _ _ _ _ _ Hrc).
Qed.

(** ** The row loop *)

Lemma read_rows_app colors nx nb l1 l2 : ∀ data iy self,
  read_rows float_repr colors nx nb (l1 ++ l2) data iy self
  = match read_rows float_repr colors nx nb l1 data iy self with
    | (inl e, self') => (inl e, self')
    | (inr data', self') =>
        read_rows float_repr colors nx nb l2 data'
          (iy + Z.of_nat (length (data_rows l1))) self'
    end.
Proof.
  induction l1 as [|line l1 IH]; intros data iy self; simpl.
  - by rewrite Z.add_0_r.
  - unfold data_rows. rewrite filter_cons. fold (data_rows l1).
    destruct (Py.startswith line "/*") eqn:Hc.
    + rewrite decide_False by done. apply IH.
    + rewrite decide_True by done.
      unfold mbind, M_bind, lift, log.
      destruct (if nb =? 0 then _ else _) as [e|vals]; [done|].
      destruct (Np.set_column _ _ _ _) as [e|data']; [done|].
      rewrite IH. simpl length.
      by replace (iy + 1 + Z.of_nat (length (data_rows l1)))
        with (iy + Z.of_nat (S (length (data_rows l1)))) by lia.
Qed.

Lemma read_rows_bad colors nx nb line rest data iy self e :
  Py.startswith line "/*" = false → nb ≠ 0 →
  lookup_all colors (unquote line) nb (Py.xrange 0 nx nb) = inl e →
  read_rows float_repr colors nx nb (line :: rest) data iy self = (inl e, self).
Proof.
  intros Hc Hnb He. simpl. rewrite Hc.
  apply Z.eqb_neq in Hnb. rewrite Hnb, He. done.
Qed.

Lemma read_rows_inv colors nx nb xpm : ∀ data iy self data' self',
  read_rows float_repr colors nx nb xpm data iy self = (inr data', self') →
  Np.shape data' = Np.shape data ∧ Np.dtype_of data' = Np.dtype_of data.
Proof.
  induction xpm as [|line xpm IH]; intros data iy self data' self'; simpl.
  - by intros [= <- <-].
  - destruct (Py.startswith line "/*"); [apply IH|].
    unfold mbind, M_bind, lift, log.
    destruct (if nb =? 0 then _ else _) as [e|vals]; [done|].
    destruct (Np.set_column _ _ _ _) as [e|data1] eqn:Hset; [done|].
    intros H%IH. apply set_column_inv in Hset. destruct H, Hset. split; congruence.
Qed.

(** The loop only ends without an error when every data row decodes. *)
Lemma read_rows_needs_ok colors nx nb xpm : ∀ data iy self data' self',
  nb ≠ 0 →
  read_rows float_repr colors nx nb xpm data iy self = (inr data', self') →
  Forall (row_ok colors nx nb) (data_rows xpm).
Proof.
  induction xpm as [|line xpm IH]; intros data iy self data' self' Hnb; simpl.
  - intros _. constructor.
  - unfold data_rows. rewrite filter_cons. fold (data_rows xpm).
    destruct (Py.startswith line "/*") eqn:Hc.
    + rewrite decide_False by done. by apply IH.
    + rewrite decide_True by done.
      unfold mbind, M_bind, lift, log.
      apply Z.eqb_neq in Hnb as Hnb'. rewrite Hnb'.
      destruct (lookup_all _ _ _ _) as [e|vals] eqn:Hvals; [done|].
      destruct (Np.set_column _ _ _ _) as [e|data1]; [done|].
      intros H%IH; [|done]. constructor; [|done]. by eapply lookup_all_inr.
Qed.

(** Rows that decode, and of which there are no more than columns left:
    the loop ends without an error and leaves the other columns alone. *)
Lemma read_rows_fill colors nx nb body : ∀ data iy self,
  wf data → nb ≠ 0 → 0 ≤ iy →
  Forall (row_ok colors nx nb) (data_rows body) →
  (data_rows body = [] ∨ fits nx nb (Np.shape data).1) →
  iy + Z.of_nat (length (data_rows body)) ≤ (Np.shape data).2 →
  ∃ data' self',
    read_rows float_repr colors nx nb body data iy self = (inr data', self') ∧
    wf data' ∧
    ∀ i (j : nat), (Z.of_nat j < iy ∨ iy + Z.of_nat (length (data_rows body)) ≤ Z.of_nat j) →
      Np.item data' i j = Np.item data i j.
Proof.
  induction body as [|line body IH]; intros data iy self Hwf Hnb Hiy Hrows Hfits Hlen.
  - exists data, self. split; [done|]. by split.
  - simpl. unfold data_rows in *. rewrite filter_cons in *.
    destruct (Py.startswith line "/*") eqn:Hc.
    + rewrite decide_False in * by done. by apply IH.
    + rewrite decide_True in * by done. simpl in Hlen.
      inversion_clear Hrows as [|?? Hrow Hrows'].
      destruct Hfits as [?|Hfits]; [done|].
      destruct (lookup_all_ok colors (unquote line) nb _ (proj1 (Forall_forall _ _) Hrow))
        as (vals & Hvals & Hl).
      destruct (set_column_ok float_repr data iy vals Hwf) as (data1 & Hset & Hwf1 & Hitem);
        [lia|rewrite Hl; exact Hfits|].
      destruct (set_column_inv _ _ _ _ _ Hset) as [Hshape _].
      unfold mbind, M_bind, lift, log.
      apply Z.eqb_neq in Hnb as Hnb'. rewrite Hnb', Hvals, Hset.
      match goal with
      | |- context [read_rows _ _ _ _ _ data1 _ ?s] =>
          destruct (IH data1 (iy + 1) s) as (data' & self' & -> & Hwf' & Hitem');
            [done|done|lia|done|right; by rewrite Hshape|rewrite Hshape; lia|]
      end.
      exists data', self'. split; [done|]. split; [done|].
      intros i j Hj. simpl length in Hj. rewrite Hitem' by lia. apply Hitem. lia.
Qed.

(** ** [decode] on a file with a well-formed header *)

(** [decode] after a dimension line and [nc] legend lines that parse. *)
Lemma decode_eq dim pal body pairs nx ny nc nb self :
  dims_of dim = Some (nx, ny, nc, nb) → length pal = Z.to_nat nc →
  mapM legend_pair pal = Some pairs →
  ∃ self1 self2, unchanged self self1 ∧ unchanged self self2 ∧
    decode convert float_repr alloc (dim :: pal ++ body) self
    = if nb =? 0 then (inl ZeroDivisionError, self1)
      else match Np.zeros alloc (nx / nb) ny
                   (palette_dtype (palette (autoconvert self) pairs)) with
           | inl e => (inl e, self1)
           | inr data0 =>
               read_rows float_repr (palette (autoconvert self) pairs) nx nb body data0 0
                 self2
           end.
Proof.
  intros Hdims Hlen Hpal. unfold decode.
  change (readline (dim :: pal ++ body)) with (dim, pal ++ body). cbv iota beta.
  assert (Hd : read_dims dim self = (inr (nx, ny, nc, nb), self))
    by (by rewrite read_dims_eq, Hdims).
  rewrite (bind_inr _ _ _ _ _ Hd). rewrite <-Hlen.
  destruct (read_colours_ok pal body pairs self Hpal) as (self1 & Hrc & Hu1).
  rewrite (bind_inr _ _ _ _ _ Hrc).
  destruct Hu1 as (Hauto & Harr & l & Hlog).
  unfold palette, palette_dtype in *.
  unfold mbind, M_bind, get_autoconvert, log, lift, raise, mret, M_ret. rewrite Hauto.
  destruct (autoconvert self) eqn:Ha; simpl;
    (do 2 eexists; split; [|split;
       [|destruct (nb =? 0); [reflexivity|destruct (Np.zeros _ _ _ _); reflexivity]]]);
    (split; [simpl; congruence|split; [simpl; congruence|]]);
    simpl; rewrite Hlog, <-?app_assoc; by eexists.
Qed.

Lemma decode_rows dim pal body pairs nx ny nc nb self data0 :
  dims_of dim = Some (nx, ny, nc, nb) → length pal = Z.to_nat nc →
  mapM legend_pair pal = Some pairs → nb ≠ 0 →
  Np.zeros alloc (nx / nb) ny (palette_dtype (palette (autoconvert self) pairs)) = inr data0 →
  ∃ self1, unchanged self self1 ∧
    decode convert float_repr alloc (dim :: pal ++ body) self
    = read_rows float_repr (palette (autoconvert self) pairs) nx nb body data0 0 self1.
Proof.
  intros Hdims Hlen Hpal Hnb Hz.
  destruct (decode_eq dim pal body pairs nx ny nc nb self Hdims Hlen Hpal)
    as (self1 & self2 & _ & Hu & Heq).
  apply Z.eqb_neq in Hnb. rewrite Hnb, Hz in Heq. by exists self2.
Qed.

(** A decoding that succeeds went through the allocation and the row loop. *)
Lemma decode_ok_inv dim pal body pairs nx ny nc nb self data self' :
  dims_of dim = Some (nx, ny, nc, nb) → length pal = Z.to_nat nc →
  mapM legend_pair pal = Some pairs →
  decode convert float_repr alloc (dim :: pal ++ body) self = (inr data, self') →
  nb ≠ 0 ∧ ∃ data0 self1,
    Np.zeros alloc (nx / nb) ny (palette_dtype (palette (autoconvert self) pairs)) = inr data0 ∧
    read_rows float_repr (palette (autoconvert self) pairs) nx nb body data0 0 self1
    = (inr data, self').
Proof.
  intros Hdims Hlen Hpal Hdec.
  destruct (decode_eq dim pal body pairs nx ny nc nb self Hdims Hlen Hpal)
    as (self1 & self2 & _ & _ & Heq).
  rewrite Hdec in Heq. destruct (Z.eqb_spec nb 0) as [|Hnb]; [done|].
  split; [done|].
  destruct (Np.zeros _ _ _ _) as [e|data0]; [done|]. by exists data0, self2.
Qed.

Lemma decode_inv xpm self data self' :
  decode convert float_repr alloc xpm self = (inr data, self') →
  ∃ dim rest nx ny nc nb, xpm = dim :: rest ∧ dims_of dim = Some (nx, ny, nc, nb) ∧
    Np.shape data = (nx / nb, ny).
Proof.
  unfold decode. destruct xpm as [|dim rest]; unfold readline; cbv iota beta;
    intros [(? & ? & ?)|(d & self1 & Hd & H)]%bind_inv; try done;
    rewrite read_dims_eq in Hd.
  destruct (dims_of dim) as [[[[nx ny] nc] nb]|] eqn:Hdims; [|done].
  injection Hd as <- <-.
  apply bind_inv in H as [(? & ? & ?)|([pairs xpm'] & self2 & _ & H)]; [done|].
  apply bind_inv in H as [(? & ? & ?)|(auto & self3 & _ & H)]; [done|].
  apply bind_inv in H as [(? & ? & ?)|(colors & self4 & _ & H)]; [done|].
  apply bind_inv in H as [(? & ? & ?)|(? & self5 & _ & H)]; [done|].
  apply bind_inv in H as [(? & ? & ?)|(data0 & self6 & Hz & H)]; [done|].
  apply bind_inv in H as [(? & ? & ?)|(? & self7 & _ & H)]; [done|].
  apply read_rows_inv in H as [Hshape _].
  exists dim, rest, nx, ny, nc, nb. split; [done|]. split; [done|].
  rewrite Hshape. destruct (nb =? 0); [done|].
  injection Hz as Hz _. by apply zeros_inv in Hz as (_ & ? & _).
Qed.

(** ** Files with a well-formed header *)

(** With such a header and an allocation that succeeds, [parse] is the row
    loop over the body, started on the array of zeros, followed by the
    assignment to [self.__array]. *)
Lemma parse_rows xpm nx ny nc nb colors body self :
  header (autoconvert self) xpm nx ny nc nb colors body →
  nb ≠ 0 → allocates (nx / nb) ny (palette_dtype colors) →
  ∃ data0 self1,
    Np.zeros alloc (nx / nb) ny (palette_dtype colors) = inr data0 ∧
    unchanged self self1 ∧
    returns xpm self
      ((read_rows float_repr colors nx nb body data0 0 ≫= set_array) self1).
Proof.
  intros (pre & m & dim & pal & pairs & -> & Hpre & Hm & Hdims & Hlen & Hpal & ->) Hnb Ha.
  destruct (zeros_ok alloc (nx / nb) ny (palette_dtype (palette (autoconvert self) pairs)) Ha)
    as [data0 Hz].
  destruct (decode_rows dim pal body pairs nx ny nc nb self data0 Hdims Hlen Hpal Hnb Hz)
    as (self1 & Hu & Hdec).
  exists data0, self1. split; [done|]. split; [done|].
  replace ((read_rows float_repr (palette (autoconvert self) pairs) nx nb body data0 0
              ≫= set_array) self1)
    with (parse_array convert float_repr alloc (dim :: pal ++ body) self).
  - by apply returns_found.
  - unfold parse_array, mbind, M_bind. by rewrite Hdec.
Qed.

(** With such a header, [parse] only decodes the file when the stride is
    not zero and every data row of the body decodes. *)
Lemma header_parse_ok xpm nx ny nc nb colors body self fuel self' :
  header (autoconvert self) xpm nx ny nc nb colors body →
  parse convert float_repr alloc fuel xpm self = Some (inr (), self') →
  nb ≠ 0 ∧ Forall (row_ok colors nx nb) (data_rows body).
Proof.
  intros (pre & m & dim & pal & pairs & -> & Hpre & Hm & Hdims & Hlen & Hpal & ->).
  intros (pre' & m' & rest' & Heq & Hpre' & Hm' & Hr)%parse_inv.
  apply marker_split_unique in Heq as (_ & _ & <-); [|done..].
  symmetry in Hr. apply parse_array_ok in Hr as (data & self1 & Hdec & _).
  apply (decode_ok_inv dim pal body pairs nx ny nc nb) in Hdec
    as (Hnb & data0 & self2 & _ & Hrows); [|done..].
  split; [done|]. by eapply read_rows_needs_ok.
Qed.

(** A data row that cannot be looked up, reached after rows that decode:
    the error of the lookup is the result of [parse]. *)
Lemma bad_row_raises xpm nx ny nc nb colors good line rest self e :
  header (autoconvert self) xpm nx ny nc nb colors (good ++ line :: rest) →
  nb ≠ 0 → allocates (nx / nb) ny (palette_dtype colors) →
  Forall (row_ok colors nx nb) (data_rows good) →
  (data_rows good = [] ∨ fits nx nb (nx / nb)) →
  Z.of_nat (length (data_rows good)) ≤ ny →
  Py.startswith line "/*" = false →
  lookup_all colors (unquote line) nb (Py.xrange 0 nx nb) = inl e →
  ∃ self', returns xpm self (inl e, self') ∧ unchanged self self'.
Proof.
  intros Hh Hnb Ha Hgood Hfits Hlen Hc He.
  destruct (parse_rows _ _ _ _ _ _ _ _ Hh Hnb Ha) as (data0 & self1 & Hz & Hu & Hret).
  apply zeros_inv in Hz as (Hwf & Hshape & _ & _).
  destruct (read_rows_fill colors nx nb good data0 0 self1) as (data1 & self2 & Hrows & _);
    [done|done|lia|done|by rewrite Hshape|rewrite Hshape; simpl; lia|].
  exists self2. split.
  - unfold mbind, M_bind in Hret. rewrite read_rows_app, Hrows in Hret.
    by rewrite (read_rows_bad _ _ _ _ _ _ _ _ _ Hc Hnb He) in Hret.
  - eapply unchanged_trans; [done|]. by eapply frames_read_rows.
Qed.

(** ** Rows that are missing, rows with unknown symbols *)

(** C5 (amended): a file with a well-formed header that declares [ny] rows
    and holds fewer data lines is parsed without an error when the stride
    is not zero, [numpy.zeros] returns the array of shape [(nx / nb, ny)],
    every slice of every data line is a symbol of the legend, and the
    number of slices of a line is the height [nx / nb] of a column or one;
    the array then has that shape and the inferred dtype, and every row of
    the result that no data line filled holds the zero of that dtype. *)
Theorem C5_missing_rows_are_zero xpm nx ny nc nb colors body self :
  header (autoconvert self) xpm nx ny nc nb colors body →
  nb ≠ 0 → allocates (nx / nb) ny (palette_dtype colors) →
  Forall (row_ok colors nx nb) (data_rows body) →
  (data_rows body = [] ∨ fits nx nb (nx / nb)) →
  Z.of_nat (length (data_rows body)) < ny →
  ∃ data self',
    returns xpm self (inr (), self') ∧
    array self' = Some data ∧
    Np.shape data = (nx / nb, ny) ∧
    Np.dtype_of data = palette_dtype colors ∧
    ∀ i j : nat,
      Z.of_nat i < nx / nb → Z.of_nat (length (data_rows body)) ≤ Z.of_nat j < ny →
      Np.item data i j = Some (Np.zero (palette_dtype colors)).
Proof.
  intros Hh Hnb Ha Hrows Hfits Hlen.
  destruct (parse_rows _ _ _ _ _ _ _ _ Hh Hnb Ha) as (data0 & self1 & Hz & Hu & Hret).
  apply zeros_inv in Hz as (Hwf & Hshape & Hdtype & Hzero).
  destruct (read_rows_fill colors nx nb body data0 0 self1)
    as (data & self2 & Hrd & _ & Hitem);
    [done|done|lia|done|by rewrite Hshape|rewrite Hshape; simpl; lia|].
  destruct (read_rows_inv _ _ _ _ _ _ _ _ _ Hrd) as [Hs Hd].
  unfold mbind, M_bind in Hret. rewrite Hrd in Hret.
  eexists data, _. split; [exact Hret|]. split; [done|].
  split; [congruence|]. split; [congruence|].
  intros i j Hi Hj. rewrite Hitem by lia. apply Hzero; lia.
Qed.

(** A data row with a slice that is not a key: the file is never decoded. *)
Lemma unknown_slice_never_decodes xpm nx ny nc nb colors good line rest self k :
  header (autoconvert self) xpm nx ny nc nb colors (good ++ line :: rest) →
  Py.startswith line "/*" = false →
  k ∈ Py.xrange 0 nx nb →
  colors !! Py.slice (unquote line) k (k + nb) = None →
  ∀ fuel r, parse convert float_repr alloc fuel xpm self = Some r →
    ∃ e, r.1 = inl e ∧ array r.2 = array self.
Proof.
  intros Hh Hc Hk Hnone fuel [[e|[]] self'] Hp.
  - exists e. split; [done|].
    apply parse_inv in Hp as (pre & m & rest' & _ & _ & _ & Hr). symmetry in Hr.
    by apply parse_array_error in Hr as (_ & Harr & _).
  - apply (header_parse_ok _ _ _ _ _ _ _ _ _ _ Hh) in Hp as [_ Hrows].
    unfold data_rows in Hrows. rewrite filter_app, filter_cons, decide_True in Hrows by done.
    apply Forall_app in Hrows as [_ Hrows]. inversion_clear Hrows as [|?? Hrow _].
    unfold row_ok in Hrow. rewrite Forall_forall in Hrow.
    destruct (Hrow k Hk) as [v Hv]. congruence.
Qed.



(** ** The header: shape, termination, malformed lines, the fixture *)

(** C1: when [parse] decodes a file, the file holds a dimension line with
    four integers [nx ny nc nb] right after the marker line, and the array
    that [array] returns has the shape [(nx / nb, ny)], with the floor
    division of Python 2. *)
Theorem C1_shape_of_decoded_array fuel xpm self self' :
  parse convert float_repr alloc fuel xpm self = Some (inr (), self') →
  ∃ pre m dim rest nx ny nc nb data,
    xpm = pre ++ m :: dim :: rest ∧
    Forall no_marker pre ∧ Py.startswith m marker = true ∧
    dims_of dim = Some (nx, ny, nc, nb) ∧
    array self' = Some data ∧
    Np.shape data = (nx / nb, ny).
Proof.
  intros (pre & m & rest & -> & Hpre & Hm & Hr)%parse_inv.
  symmetry in Hr. apply parse_array_ok in Hr as (data & self1 & Hdec & Harr & _).
  apply decode_inv in Hdec as (dim & rest' & nx & ny & nc & nb & -> & Hdims & Hshape).
  by exists pre, m, dim, rest', nx, ny, nc, nb, data.
Qed.

(** C9 (what the code does): on a file none of whose lines begins with the
    marker, the scan for the marker is still running after any number of
    tests of its condition, so [parse] neither returns nor raises. *)
Theorem C9_scan_without_marker_never_ends xpm self fuel :
  Forall no_marker xpm → parse convert float_repr alloc fuel xpm self = None.
Proof. apply parse_diverges. Qed.

(** Once a line begins with the marker, [parse] does end: nothing after the
    scan can run forever. *)
Lemma parse_ends_after_marker pre m rest self :
  Forall no_marker pre → Py.startswith m marker = true →
  ∃ r, returns (pre ++ m :: rest) self r.
Proof. intros Hpre Hm. eexists. by apply returns_found. Qed.

(** C8 (amended): when the line after the marker line does not hold exactly
    four integers, [parse] raises [ValueError] before the palette is read
    and before any array is allocated; the object is left exactly as it
    was: [array] is unchanged and no record has been handed to the logger. *)
Theorem C8_malformed_dimension_line pre m rest self :
  Forall no_marker pre → Py.startswith m marker = true →
  dims_of (readline rest).1 = None →
  returns (pre ++ m :: rest) self (inl ValueError, self).
Proof.
  intros Hpre Hm Hd.
  replace (inl ValueError, self) with (parse_array convert float_repr alloc rest self);
    [by apply returns_found|].
  unfold parse_array, decode. destruct (readline rest) as [dim xpm']. simpl in Hd.
  apply bind_inl, bind_inl. by rewrite read_dims_eq, Hd.
Qed.

Lemma legend_pairs_of good :
  Forall legend_line good → ∃ pairs, mapM legend_pair good = Some pairs.
Proof.
  intros Hgood. apply mapM_is_Some. eapply Forall_impl; [exact Hgood|].
  intros c [mo Hmo]%legend_line_search. unfold legend_pair. simpl. rewrite Hmo. by eexists.
Qed.

Lemma legend_pair_none c : ¬ legend_line c → legend_pair c = None.
Proof.
  intros Hc. unfold legend_pair. destruct (Re.search COLOUR c) as [mo|] eqn:Hmo; [|done].
  destruct Hc. apply legend_line_search. by eexists.
Qed.

(** C7: when one of the [nc] lines read after the dimension line does not
    match the legend pattern, [XPM.col] hands a record of level FATAL to the
    logger and raises [ParseError] for that line; [parse] ends with this
    error, the FATAL record being the last one logged, and [array] is what
    it was before the call. *)
Theorem C7_unparsable_legend_line pre m dim good tail nx ny nc nb c self :
  Forall no_marker pre → Py.startswith m marker = true →
  dims_of dim = Some (nx, ny, nc, nb) →
  Forall legend_line good → (length good < Z.to_nat nc)%nat →
  (readline tail).1 = c → ¬ legend_line c →
  col c self = (inl (ParseError c), logged self (fatal_record c)) ∧
  ∃ self',
    returns (pre ++ m :: dim :: good ++ tail) self (inl (ParseError c), self') ∧
    last (logger self') = Some (fatal_record c) ∧
    array self' = array self.
Proof.
  intros Hpre Hm Hdims Hgood Hlen Hc Hbad.
  apply legend_pair_none in Hbad. split; [by apply col_fail|].
  destruct (legend_pairs_of good Hgood) as [pairs Hpairs].
  destruct (read_colours_fail good (Z.to_nat nc) tail c pairs self Hpairs Hc Hbad Hlen)
    as (self' & Hrc & (_ & Harr & _) & Hlast).
  exists self'. split; [|done].
  replace (inl (ParseError c), self')
    with (parse_array convert float_repr alloc (dim :: good ++ tail) self);
    [by apply returns_found|].
  unfold parse_array, decode.
  change (readline (dim :: good ++ tail)) with (dim, good ++ tail). cbv iota beta.
  apply bind_inl.
  assert (Hd : read_dims dim self = (inr (nx, ny, nc, nb), self))
    by (by rewrite read_dims_eq, Hdims).
  rewrite (bind_inr _ _ _ _ _ Hd). by apply bind_inl.
Qed.

(** C3 (amended): the fixture whose dimension line reads [2 2 2 1], whose
    legend maps [' '] to ["0"] and ['o'] to ["1"] and whose rows are [" o"]
    and ["o "] is decoded, by a reader that converts the two values to the
    integers 0 and 1 and on a machine that grants an array of two by two
    integers, to the array [[0, 1], [1, 0]] of dtype [int64]. *)
Theorem C3_fixture_decodes self :
  autoconvert self = true →
  convert "0" = Np.Int 0 → convert "1" = Np.Int 1 →
  allocates 2 2 Np.int64 →
  ∃ self',
    returns fixture self (inr (), self') ∧
    array self' = Some {| Np.shape := (2, 2); Np.dtype_of := Np.int64;
                          Np.cells := [[Np.Int 0; Np.Int 1]; [Np.Int 1; Np.Int 0]] |}.
Proof.
  intros Hauto H0 H1 Ha.
  set (body := [data_line " o"; quoted "o " +:+ newline]).
  assert (Hh : header (autoconvert self) fixture 2 2 2 1
                 (palette true [(" ", "0"); ("o", "1")]) body).
  { exists ["/* XPM */" +:+ newline], ("static char *gromacs_xpm[] = {" +:+ newline),
      (quoted "2 2 2 1" +:+ "," +:+ newline), legend01, [(" ", "0"); ("o", "1")].
    split; [done|]. split; [by repeat constructor|]. split; [by vm_compute|].
    split; [done|]. split; [done|]. split; [by vm_compute|by rewrite Hauto]. }
  assert (Hcol : palette true [(" ", "0"); ("o", "1")]
                 = <["o" := Np.Int 1]> (<[" " := Np.Int 0]> ∅)).
  { unfold palette, dict. simpl. by rewrite !fmap_insert, fmap_empty, H0, H1. }
  rewrite Hcol in Hh.
  destruct (parse_rows _ _ _ _ _ _ _ _ Hh) as (data0 & self1 & Hz & (_ & Harr & _) & Hret);
    [done|exact Ha|].
  destruct Ha as (_ & _ & Ha).
  change (Np.zeros alloc 2 2 Np.int64 = inr data0) in Hz.
  unfold Np.zeros in Hz. rewrite Ha in Hz. vm_compute in Hz. injection Hz as <-.
  destruct ((read_rows float_repr (<["o" := Np.Int 1]> (<[" " := Np.Int 0]> ∅)) 2 1 body _ 0
               ≫= set_array) self1) as [r self'] eqn:Hrun.
  vm_compute in Hrun. injection Hrun as <- <-.
  eexists. split; [exact Hret|done].
Qed.

(** ** Strides and short rows *)

Lemma header_not_key auto xpm nx ny nc nb colors body key :
  header auto xpm nx ny nc nb colors body → Py.len key ≠ 1 → colors !! key = None.
Proof.
  intros (pre & m & dim & pal & pairs & _ & _ & _ & _ & _ & Hpal & ->) Hlen.
  apply eq_None_not_Some. intros Hsome.
  assert (Hd : is_Some (dict pairs !! key)).
  { unfold palette in Hsome. destruct auto; rewrite lookup_fmap in Hsome;
      by apply fmap_is_Some in Hsome. }
  apply dict_lookup_is_Some in Hd.
  apply legend_pairs_symbols in Hpal.
  rewrite Forall_forall in Hpal. specialize (Hpal key Hd). unfold Py.len in Hlen. lia.
Qed.

Lemma data_rows_comments cmts :
  Forall (λ l, Py.startswith l "/*" = true) cmts → data_rows cmts = [].
Proof.
  induction 1 as [|l cmts Hl _ IH]; [done|].
  unfold data_rows. rewrite filter_cons, decide_False by congruence. exact IH.
Qed.

(** C2 (amended): when the width [nx >= 2] of a file with a well-formed
    header is not a multiple of the stride [nb > 0] and the first data row
    holds [nx] symbols, decoding does not succeed and nothing is truncated:
    the first slice of the row has at least two characters and no key of
    the palette has more than one, so whatever [parse] returns is an error
    and [array] is what it was before the call; and when [numpy.zeros]
    returns the array of shape [(nx / nb, ny)], the error is [KeyError] for
    that slice. *)
Theorem C2_stride_not_dividing_width xpm nx ny nc nb colors cmts line rest self :
  header (autoconvert self) xpm nx ny nc nb colors (cmts ++ line :: rest) →
  0 < nb → nx mod nb ≠ 0 → 2 ≤ nx →
  Forall (λ l, Py.startswith l "/*" = true) cmts →
  Py.startswith line "/*" = false →
  Py.len (unquote line) = nx →
  2 ≤ Py.len (Py.slice (unquote line) 0 nb) ∧
  (∀ fuel r, parse convert float_repr alloc fuel xpm self = Some r →
     ∃ e, r.1 = inl e ∧ array r.2 = array self) ∧
  (allocates (nx / nb) ny (palette_dtype colors) →
   ∃ self',
     returns xpm self (inl (KeyError (Py.slice (unquote line) 0 nb)), self') ∧
     array self' = array self).
Proof.
  intros Hh Hnb Hmod Hnx Hcmts Hc Hlen.
  assert (2 ≤ nb).
  { destruct (decide (nb = 1)) as [->|]; [|lia]. by rewrite Z.mod_1_r in Hmod. }
  assert (Hslice : 2 ≤ Py.len (Py.slice (unquote line) 0 nb)).
  { rewrite slice_len0 by lia. lia. }
  assert (Hnone : colors !! Py.slice (unquote line) 0 nb = None).
  { eapply header_not_key; [exact Hh|lia]. }
  destruct (xrange_head nx nb) as [ks Hks]; [lia..|].
  split; [done|]. split.
  - eapply (unknown_slice_never_decodes _ _ _ _ _ _ _ _ _ _ 0); [exact Hh|done| |].
    + rewrite Hks. by left.
    + change (0 + nb) with nb. exact Hnone.
  - intros Ha.
    destruct (bad_row_raises xpm nx ny nc nb colors cmts line rest self
                (KeyError (Py.slice (unquote line) 0 nb))) as (self' & Hret & _ & Harr & _);
      try done.
    + lia.
    + by rewrite data_rows_comments.
    + left. by apply data_rows_comments.
    + rewrite data_rows_comments by done. simpl. destruct Ha as (_ & ? & _). lia.
    + rewrite Hks. cbn [lookup_all]. change (0 + nb) with nb. by rewrite Hnone.
    + by exists self'.
Qed.



End ReaderFacts.

(** * Instances of the claims on concrete files *)

Lemma legend01_header dims nx ny nb body :
  dims_of (quoted dims +:+ "," +:+ newline) = Some (nx, ny, 2, nb) →
  header convert_model true (head_lines dims ++ legend01 ++ body) nx ny 2 nb
    (palette convert_model true [(" ", "0"); ("o", "1")]) body.
Proof.
  intros Hd.
  exists ["/* XPM */" +:+ newline], ("static char *gromacs_xpm[] = {" +:+ newline),
    (quoted dims +:+ "," +:+ newline), legend01, [(" ", "0"); ("o", "1")].
  split; [done|]. split; [by repeat constructor|]. split; [by vm_compute|].
  split; [done|]. split; [done|]. split; [by vm_compute|done].
Qed.

Lemma C5_missing_rows_are_zero_witness :
  ∃ data self',
    returns convert_model float_repr_none alloc_model short_file fresh (inr (), self') ∧
    array self' = Some data ∧
    Np.shape data = (2, 2) ∧
    Np.dtype_of data = Np.int64 ∧
    ∀ i j : nat, Z.of_nat i < 2 → 1 ≤ Z.of_nat j < 2 → Np.item data i j = Some (Np.Int 0).
Proof.
  apply (C5_missing_rows_are_zero convert_model float_repr_none alloc_model short_file 2 2 2 1
           (palette convert_model true [(" ", "0"); ("o", "1")]) [data_line " o"] fresh).
  - by apply legend01_header.
  - lia.
  - by vm_compute.
  - repeat constructor; vm_compute; by eexists.
  - right. by left.
  - simpl. lia.
Defined.

(** The claim C5 as it is written fails on [short_unknown_file]: it declares
    three rows and holds two data lines, and [parse] raises [KeyError] for
    the symbol [x] of the second, which the legend does not have. *)
Lemma C5_counterexample :
  dims_of (quoted "2 3 2 1" +:+ "," +:+ newline) = Some (2, 3, 2, 1) ∧
  length (data_rows [data_line " o"; data_line "ox"]) = 2%nat ∧
  fst <$> parse convert_model float_repr_none alloc_model 2 short_unknown_file fresh
  = Some (inl (KeyError "x")).
Proof. repeat split; vm_compute; reflexivity. Qed.



Lemma C1_shape_of_decoded_array_witness :
  ∃ self',
    parse convert_model float_repr_none alloc_model 2 fixture fresh = Some (inr (), self') ∧
    ∃ pre m dim rest nx ny nc nb data,
      fixture = pre ++ m :: dim :: rest ∧
      Forall no_marker pre ∧ Py.startswith m marker = true ∧
      dims_of dim = Some (nx, ny, nc, nb) ∧
      array self' = Some data ∧
      Np.shape data = (nx / nb, ny).
Proof.
  eexists. split; [vm_compute; reflexivity|].
  apply (C1_shape_of_decoded_array convert_model float_repr_none alloc_model 2 fixture fresh).
  vm_compute. reflexivity.
Defined.

Lemma C2_stride_not_dividing_width_witness :
  2 ≤ Py.len "oo" ∧
  (∀ fuel r,
     parse convert_model float_repr_none alloc_model fuel stride_file fresh = Some r →
     ∃ e, r.1 = inl e ∧ array r.2 = array fresh) ∧
  ∃ self',
    returns convert_model float_repr_none alloc_model stride_file fresh
      (inl (KeyError "oo"), self') ∧
    array self' = array fresh.
Proof.
  destruct (C2_stride_not_dividing_width convert_model float_repr_none alloc_model
              stride_file 3 1 1 2 (palette convert_model true [("o", "1")]) []
              (quoted "ooo" +:+ newline) [] fresh) as (Hlen & Hnever & Hkey).
  - exists ["/* XPM */" +:+ newline], ("static char *gromacs_xpm[] = {" +:+ newline),
      (quoted "3 1 1 2" +:+ "," +:+ newline), [legend_entry "o" "#FF0000" "1"], [("o", "1")].
    split; [done|]. split; [by repeat constructor|]. split; [by vm_compute|].
    split; [by vm_compute|]. split; [done|]. split; [by vm_compute|done].
  - lia.
  - by vm_compute.
  - lia.
  - constructor.
  - by vm_compute.
  - by vm_compute.
  - split; [exact Hlen|]. split; [exact Hnever|]. apply Hkey. by vm_compute.
Defined.

(** The claim C2 as it is written fails on [stride_file]: the row of three
    symbols is not decoded, [parse] raises [KeyError] for its first two. *)
Lemma C2_counterexample :
  fst <$> parse convert_model float_repr_none alloc_model 2 stride_file fresh
  = Some (inl (KeyError "oo")).
Proof. vm_compute. reflexivity. Qed.

Lemma C3_fixture_decodes_witness :
  ∃ self',
    returns convert_model float_repr_none alloc_model fixture fresh (inr (), self') ∧
    array self' = Some {| Np.shape := (2, 2); Np.dtype_of := Np.int64;
                          Np.cells := [[Np.Int 0; Np.Int 1]; [Np.Int 1; Np.Int 0]] |}.
Proof.
  apply (C3_fixture_decodes convert_model float_repr_none alloc_model fresh);
    [reflexivity..|by vm_compute].
Defined.

(** The claim C3 as it is written fails: with the width 4 of the fixture of
    the spec, the first row [" o"] ends before the third slice, and [parse]
    raises [KeyError] for the empty string. *)
Lemma C3_counterexample :
  fst <$> parse convert_model float_repr_none alloc_model 2 fixture_nx4 fresh
  = Some (inl (KeyError EmptyString)).
Proof. vm_compute. reflexivity. Qed.

Lemma C6_symbol_and_value_witness :
  ∃ g post,
    legend_ok g = true ∧ legend_entry "o" "#FF0000" "1" = legend_text g +:+ post ∧
    "o" = String (l_symbol g) EmptyString ∧ "1" = l_value g ∧
    (∀ g' post', legend_ok g' = true →
       legend_entry "o" "#FF0000" "1" = legend_text g' +:+ post' →
       (String.length (l_pre g') ≤ String.length (l_pre g))%nat) ∧
    (∀ post1 post2, post = post1 +:+ String dquote post2 → all_in Re.any post1 = false) ∧
    (count_quotes (legend_entry "o" "#FF0000" "1") = 4%nat →
     count_quotes (l_pre g) = 0%nat ∧ count_quotes "1" = 0%nat ∧ count_quotes post = 0%nat).
Proof.
  eapply (C6_symbol_and_value (legend_entry "o" "#FF0000" "1") fresh "o" "1").
  vm_compute. reflexivity.
Defined.

(** The claim C6 as it is written fails on [prefixed_legend_line]: its first
    two quote marks enclose the single character [x], and [XPM.col] returns
    the symbol [o]. *)
Lemma C6_counterexample :
  (col prefixed_legend_line fresh).1 = inr ("o", "1") ∧
  Py.find prefixed_legend_line dquote = 0 ∧
  Py.slice prefixed_legend_line 0 3 = quoted "x".
Proof. repeat split; vm_compute; reflexivity. Qed.

Lemma C7_unparsable_legend_line_witness :
  col bad_legend_line fresh
  = (inl (ParseError bad_legend_line), logged fresh (fatal_record bad_legend_line)) ∧
  ∃ self',
    returns convert_model float_repr_none alloc_model bad_legend_file fresh
      (inl (ParseError bad_legend_line), self') ∧
    last (logger self') = Some (fatal_record bad_legend_line) ∧
    array self' = array fresh.
Proof.
  apply (C7_unparsable_legend_line convert_model float_repr_none alloc_model
           ["/* XPM */" +:+ newline] ("static char *gromacs_xpm[] = {" +:+ newline)
           (quoted "2 2 2 1" +:+ "," +:+ newline) [legend_entry " " "#FFFFFF" "0"]
           (bad_legend_line :: [data_line " o"; quoted "o " +:+ newline]) 2 2 2 1
           bad_legend_line fresh).
  - by repeat constructor.
  - by vm_compute.
  - by vm_compute.
  - repeat constructor. apply legend_line_search. vm_compute. by eexists.
  - simpl. lia.
  - done.
  - intros [mo Hmo]%legend_line_search. by vm_compute in Hmo.
Defined.

Lemma C8_malformed_dimension_line_witness :
  returns convert_model float_repr_none alloc_model three_dims_file fresh (inl ValueError, fresh).
Proof.
  apply (C8_malformed_dimension_line convert_model float_repr_none alloc_model
           ["/* XPM */" +:+ newline] ("static char *gromacs_xpm[] = {" +:+ newline)
           ((quoted "4 2 2" +:+ "," +:+ newline) :: legend01
              ++ [data_line " o"; quoted "o " +:+ newline]) fresh).
  - by repeat constructor.
  - by vm_compute.
  - by vm_compute.
Defined.

(** The claim C8 as it is written fails on [three_dims_file]: [parse] raises
    [ValueError] and the logger of the reader is still empty, so no record
    of any level was logged before the error. *)
Lemma C8_counterexample :
  parse convert_model float_repr_none alloc_model 2 three_dims_file fresh = Some (inl ValueError, fresh) ∧
  logger fresh = [].
Proof. split; vm_compute; reflexivity. Qed.

Lemma C9_scan_without_marker_never_ends_witness :
  parse convert_model float_repr_none alloc_model 1000 no_marker_file fresh = None.
Proof.
  apply (C9_scan_without_marker_never_ends convert_model float_repr_none alloc_model
           no_marker_file fresh 1000).
  by repeat constructor.
Defined.



(** * The rest of the reader *)

(** ** Slices of concatenations *)

Lemma substring_none s n : substring n 0 s = EmptyString.
Proof. revert n. induction s as [|a s IH]; intros [|n]; simpl; auto. Qed.

Lemma substring_prefix b t : substring 0 (String.length b) (b +:+ t) = b.
Proof.
  induction b as [|a b IH]; [apply substring_none|].
  rewrite app_cons_s. simpl. by rewrite IH.
Qed.

Lemma substring_skip a n t : substring (String.length a) n (a +:+ t) = substring 0 n t.
Proof. induction a as [|x a IH]; [done|]. rewrite app_cons_s. simpl. exact IH. Qed.

(** [(a + b + t)[len(a) : len(a) + len(b)]] is [b]. *)
Lemma slice_middle a b t :
  Py.slice (a +:+ b +:+ t) (Py.len a) (Py.len a + Py.len b) = b.
Proof.
  unfold Py.slice, Py.clip, Py.len. rewrite !length_app_s.
  destruct (Z.ltb_spec (Z.of_nat (String.length a)) 0); [lia|].
  destruct (Z.ltb_spec (Z.of_nat (String.length a) + Z.of_nat (String.length b)) 0); [lia|].
  replace (Z.to_nat (Z.min (Z.of_nat (String.length a)) _)) with (String.length a) by lia.
  replace (Z.to_nat (_ - _)) with (String.length b) by lia.
  by rewrite substring_skip, substring_prefix.
Qed.

(** ** The first and the last quote mark *)

Lemma find_quote_none s i : count_quotes s = 0%nat → Py.find_at dquote s i = -1.
Proof.
  revert i. induction s as [|a s IH]; intros i; simpl; [done|].
  destruct (Ascii.eqb a dquote); [done|]. apply IH.
Qed.

Lemma find_quote_first pre t i :
  count_quotes pre = 0%nat →
  Py.find_at dquote (pre +:+ String dquote t) i = i + Py.len pre.
Proof.
  revert i. induction pre as [|a pre IH]; intros i; simpl.
  - intros _. rewrite ?app_nil_l_s. simpl. rewrite ?Ascii.eqb_refl. unfold Py.len. simpl. lia.
  - rewrite ?app_cons_s. simpl. destruct (Ascii.eqb a dquote); [done|]. intros H.
    rewrite IH by done. unfold Py.len. simpl String.length. lia.
Qed.

Lemma rfind_quote_none s i last :
  count_quotes s = 0%nat → Py.rfind_at dquote s i last = last.
Proof.
  revert i. induction s as [|a s IH]; intros i; simpl; [done|].
  destruct (Ascii.eqb a dquote); [done|]. apply IH.
Qed.

Lemma rfind_quote_last x post i last :
  count_quotes post = 0%nat →
  Py.rfind_at dquote (x +:+ String dquote post) i last = i + Py.len x.
Proof.
  intros Hpost. revert i last. induction x as [|a x IH]; intros i last.
  - rewrite ?app_nil_l_s. simpl. rewrite ?Ascii.eqb_refl, rfind_quote_none by done.
    unfold Py.len. simpl. lia.
  - rewrite ?app_cons_s. simpl. rewrite IH. unfold Py.len. simpl String.length. lia.
Qed.

Lemma count_quotes_one s :
  count_quotes s = 1%nat →
  ∃ pre post, s = pre +:+ String dquote post ∧
    count_quotes pre = 0%nat ∧ count_quotes post = 0%nat.
Proof.
  induction s as [|a s IH]; simpl; [done|].
  destruct (Ascii.eqb_spec a dquote) as [->|Hne]; simpl.
  - intros [= H]. by exists EmptyString, s.
  - intros (pre & post & -> & Hpre & Hpost)%IH.
    exists (String a pre), post. split; [done|]. split; [|done].
    simpl. destruct (Ascii.eqb_spec a dquote); [done|]. done.
Qed.

(** ** [XPM.unquote] *)

(** X1: [unquote] returns the text between the first and the last quote
    mark of the line, whatever stands before the first and after the last
    (a trailing comma, the line terminator) and whatever the text itself
    holds, quote marks included. *)
Theorem X1_unquote_between_quotes pre b post :
  count_quotes pre = 0%nat → count_quotes post = 0%nat →
  unquote (pre +:+ String dquote (b +:+ String dquote post)) = b.
Proof.
  intros Hpre Hpost. unfold unquote, Py.find, Py.rfind.
  rewrite find_quote_first by done.
  replace (pre +:+ String dquote (b +:+ String dquote post))
    with ((pre +:+ String dquote b) +:+ String dquote post)
    by (by rewrite app_assoc_s, app_cons_s).
  rewrite rfind_quote_last by done.
  replace ((pre +:+ String dquote b) +:+ String dquote post)
    with ((pre +:+ String dquote EmptyString) +:+ b +:+ String dquote post)
    by (by rewrite !app_assoc_s, !app_cons_s, !app_nil_l_s).
  replace (1 + (0 + Py.len pre)) with (Py.len (pre +:+ String dquote EmptyString))
    by (unfold Py.len; rewrite length_app_s; simpl; lia).
  replace (0 + Py.len (pre +:+ String dquote b))
    with (Py.len (pre +:+ String dquote EmptyString) + Py.len b)
    by (unfold Py.len; rewrite !length_app_s; simpl; lia).
  apply slice_middle.
Qed.

(** X2: on a line without any quote mark, [unquote] does not return the
    line: both searches give [-1], the slice is [s[0:-1]] and the last
    character of the line is dropped. *)
Theorem X2_unquote_without_quotes t a :
  count_quotes (t +:+ String a EmptyString) = 0%nat →
  unquote (t +:+ String a EmptyString) = t.
Proof.
  intros Hq. unfold unquote, Py.find, Py.rfind.
  rewrite find_quote_none, rfind_quote_none by done.
  unfold Py.slice, Py.clip, Py.len. rewrite length_app_s. simpl.
  replace (Z.to_nat ((1 + -1) `min` _)) with 0%nat by lia.
  replace (Z.to_nat (_ - _)) with (String.length t) by lia.
  apply substring_prefix.
Qed.

(** X3: on a line with a single quote mark, [unquote] returns the empty
    string: the first and the last quote mark are the same one. *)
Theorem X3_unquote_single_quote s :
  count_quotes s = 1%nat → unquote s = EmptyString.
Proof.
  intros (pre & post & -> & Hpre & Hpost)%count_quotes_one.
  unfold unquote, Py.find, Py.rfind.
  rewrite find_quote_first, rfind_quote_last by done.
  unfold Py.slice, Py.clip, Py.len. rewrite length_app_s. simpl.
  destruct (Z.ltb_spec (1 + (0 + Z.of_nat (String.length pre))) 0); [lia|].
  destruct (Z.ltb_spec (0 + Z.of_nat (String.length pre)) 0); [lia|].
  replace (Z.to_nat (_ - _)) with 0%nat by lia.
  apply substring_none.
Qed.

(** ** [XPM.uncomment] *)

Lemma find_sub_none sub s i : occurs sub s = false → PyStr.find_at sub s i = -1.
Proof.
  revert i. induction s as [|a s IH]; intros i; cbn [occurs PyStr.find_at].
  - by destruct (String.prefix sub EmptyString).
  - destruct (String.prefix sub (String a s)); [done|]. apply IH.
Qed.

Lemma rfind_sub_none sub s i last : occurs sub s = false → PyStr.rfind_at sub s i last = last.
Proof.
  revert i. induction s as [|a s IH]; intros i; cbn [occurs PyStr.rfind_at].
  - by destruct (String.prefix sub EmptyString).
  - destruct (String.prefix sub (String a s)); [done|]. apply IH.
Qed.

Lemma prefix_two a b s : String.prefix (String a (String b EmptyString)) (String a (String b s)) = true.
Proof.
  simpl. destruct (ascii_dec a a); [|done]. destruct (ascii_dec b b); [|done]. by destruct s.
Qed.

Lemma rfind_close_last x post i last :
  occurs "*/" post = false →
  PyStr.rfind_at "*/" (x +:+ String "*" (String "/" post)) i last = i + Py.len x.
Proof.
  intros Hpost. revert i last. induction x as [|a x IH]; intros i last.
  - rewrite ?app_nil_l_s. cbn [PyStr.rfind_at].
    rewrite (prefix_two "*" "/" post).
    replace (String.prefix "*/" (String "/" post)) with false by done.
    rewrite rfind_sub_none by done. unfold Py.len. simpl. lia.
  - rewrite ?app_cons_s. cbn [PyStr.rfind_at]. rewrite IH.
    unfold Py.len. simpl String.length. lia.
Qed.

(** X4: [uncomment] returns the text between the comment opener that
    starts the line and the last comment closer, whatever the text holds
    and whatever follows the closer. *)
Theorem X4_uncomment_between_delimiters b post :
  occurs "*/" post = false →
  uncomment (String "/" (String "*" (b +:+ String "*" (String "/" post)))) = b.
Proof.
  intros Hpost.
  set (s := String "/" (String "*" (b +:+ String "*" (String "/" post)))).
  assert (Hf : PyStr.find s "/*" = 0).
  { unfold PyStr.find, s. cbn [PyStr.find_at]. by rewrite (prefix_two "/" "*"). }
  assert (Hr : PyStr.rfind s "*/" = 2 + Py.len b).
  { unfold PyStr.rfind.
    replace s with ((String "/" (String "*" b)) +:+ String "*" (String "/" post)) by done.
    rewrite rfind_close_last by done. unfold Py.len. simpl String.length. lia. }
  unfold uncomment. rewrite Hf, Hr.
  exact (slice_middle "/*" b (String "*" (String "/" post))).
Qed.

(** X5: on a string that holds neither delimiter, [uncomment] does not
    return the string: both searches give [-1], the slice is [s[1:-1]] and
    the first and the last character are dropped. *)
Theorem X5_uncomment_without_delimiters a t z :
  occurs "/*" (String a (t +:+ String z EmptyString)) = false →
  occurs "*/" (String a (t +:+ String z EmptyString)) = false →
  uncomment (String a (t +:+ String z EmptyString)) = t.
Proof.
  intros Ho Hc. unfold uncomment, PyStr.find, PyStr.rfind.
  rewrite find_sub_none, rfind_sub_none by done.
  unfold Py.slice, Py.clip, Py.len. cbn [String.length]. rewrite length_app_s.
  cbn [String.length].
  replace (Z.to_nat (if 2 + -1 <? 0 then _ else _)) with 1%nat by (simpl; lia).
  replace (Z.to_nat (_ - _)) with (String.length t) by (simpl; lia).
  cbn [substring]. apply substring_prefix.
Qed.

(** ** The scan for the marker, for any amount of fuel *)

Lemma scan_meta_short pre : ∀ meta m rest fuel,
  no_marker (last_line meta) → Forall no_marker pre →
  (fuel ≤ length pre + 1)%nat →
  scan_meta fuel meta (pre ++ m :: rest) = None.
Proof.
  induction pre as [|x pre IH]; intros meta m rest fuel Hm Hpre Hfuel.
  - destruct fuel as [|[|fuel]]; [done| |simpl in Hfuel; lia].
    simpl. by rewrite Hm.
  - destruct fuel as [|fuel]; [done|]. inversion_clear Hpre.
    simpl. rewrite Hm. apply IH; [by rewrite last_line_snoc|done|simpl in Hfuel; lia].
Qed.

Lemma first_marker xpm :
  Exists (λ l, Py.startswith l marker = true) xpm →
  ∃ pre m rest, xpm = pre ++ m :: rest ∧ Forall no_marker pre ∧
    Py.startswith m marker = true.
Proof.
  induction 1 as [l xpm Hl|l xpm _ (pre & m & rest & -> & Hpre & Hm)].
  - by exists [], l, xpm.
  - destruct (Py.startswith l marker) eqn:Hl.
    + by exists [], l, (pre ++ m :: rest).
    + exists (l :: pre), m, rest. split; [done|]. split; [by constructor|done].
Qed.

(** ** Comment lines in the body *)

Lemma data_rows_idem body : data_rows (data_rows body) = data_rows body.
Proof.
  unfold data_rows. induction body as [|l body IH]; [done|].
  rewrite filter_cons. destruct (decide _) as [Hl|Hl]; [|done].
  by rewrite filter_cons, decide_True, IH.
Qed.

Lemma read_colours_app pal body : ∀ self,
  read_colours (length pal) (pal ++ body) self
  = match read_colours (length pal) pal self with
    | (inl e, self') => (inl e, self')
    | (inr (ps, _), self') => (inr (ps, body), self')
    end.
Proof.
  induction pal as [|c pal IH]; intros self; simpl; [done|].
  unfold mbind, M_bind. destruct (col c self) as [[e|p] self1]; [done|].
  rewrite IH. by destruct (read_colours (length pal) pal self1) as [[e|[ps ?]] self2].
Qed.

Lemma bind_unfold {A B} (m : M A) (f : A → M B) self :
  (m ≫= f) self = match m self with
                  | (inl e, self') => (inl e, self')
                  | (inr a, self') => f a self'
                  end.
Proof. reflexivity. Qed.

Section MoreFacts.

Variable convert : string → Np.scalar.
Variable float_repr : float → string.
Variable alloc : Z → Z → Np.dtype → Np.answer.

#[local] Abbreviation palette := (palette convert).
#[local] Abbreviation header := (header convert).
#[local] Abbreviation returns := (returns convert float_repr alloc).
#[local] Abbreviation allocates := (allocates alloc).

(** [parse] on a file with a marker line, whatever the fuel. *)
Lemma parse_marker pre m rest fuel self :
  Forall no_marker pre → Py.startswith m marker = true →
  parse convert float_repr alloc fuel (pre ++ m :: rest) self
  = if decide (length pre < fuel)%nat
    then Some (parse_array convert float_repr alloc rest self) else None.
Proof.
  intros Hpre Hm. destruct (decide _) as [Hf|Hf]; [by apply parse_found|].
  unfold parse. destruct pre as [|x pre]; simpl.
  - destruct fuel; [done|simpl in Hf; lia].
  - inversion_clear Hpre. rewrite scan_meta_short; [done|done|done|simpl in Hf; lia].
Qed.

Lemma read_rows_data_rows colors nx nb body : ∀ data iy self,
  read_rows float_repr colors nx nb body data iy self
  = read_rows float_repr colors nx nb (data_rows body) data iy self.
Proof.
  induction body as [|line body IH]; intros data iy self; [done|].
  unfold data_rows. rewrite filter_cons. fold (data_rows body).
  destruct (Py.startswith line "/*") eqn:Hc.
  - rewrite decide_False by done. simpl. rewrite Hc. apply IH.
  - rewrite decide_True by done. simpl. rewrite Hc.
    unfold mbind, M_bind, lift, log.
    destruct (if nb =? 0 then _ else _) as [e|vals]; [done|].
    destruct (Np.set_column _ _ _ _) as [e|data1]; [done|]. apply IH.
Qed.

Lemma decode_data_rows dim pal body nx ny nc nb self :
  dims_of dim = Some (nx, ny, nc, nb) → length pal = Z.to_nat nc →
  decode convert float_repr alloc (dim :: pal ++ body) self
  = decode convert float_repr alloc (dim :: pal ++ data_rows body) self.
Proof.
  intros Hdims Hlen. unfold decode.
  change (readline (dim :: pal ++ body)) with (dim, pal ++ body).
  change (readline (dim :: pal ++ data_rows body)) with (dim, pal ++ data_rows body).
  cbv iota beta.
  assert (Hd : read_dims dim self = (inr (nx, ny, nc, nb), self))
    by (by rewrite read_dims_eq, Hdims).
  rewrite !(bind_inr _ _ _ _ _ Hd). rewrite <-Hlen.
  rewrite !bind_unfold, !read_colours_app.
  destruct (read_colours (length pal) pal self) as [[e|[ps ?]] self1]; [reflexivity|].
  unfold mbind, M_bind, get_autoconvert, log, lift, raise, mret, M_ret.
  destruct (autoconvert self1); destruct (nb =? 0); try reflexivity;
    destruct (Np.zeros _ _ _ _); try reflexivity; apply read_rows_data_rows.
Qed.

(** X6: lines that begin with the comment opener are invisible to the row
    loop wherever they stand among the data rows: the file without them
    gives the same result, the same array and the same log. *)
Theorem X6_comment_lines_are_skipped pre m dim pal body nx ny nc nb self fuel :
  Forall no_marker pre → Py.startswith m marker = true →
  dims_of dim = Some (nx, ny, nc, nb) → length pal = Z.to_nat nc →
  parse convert float_repr alloc fuel (pre ++ m :: dim :: pal ++ body) self
  = parse convert float_repr alloc fuel (pre ++ m :: dim :: pal ++ data_rows body) self.
Proof.
  intros Hpre Hm Hdims Hlen. rewrite !parse_marker by done.
  destruct (decide _); [|done]. f_equal. unfold parse_array, mbind, M_bind.
  by rewrite (decode_data_rows dim pal body nx ny nc nb).
Qed.

(** X7: the lines before the marker line and what the marker line holds
    after the marker have no effect: two files that agree after their
    marker lines give the same result. *)
Theorem X7_lines_before_marker_are_discarded pre pre' m m' rest self r :
  Forall no_marker pre → Py.startswith m marker = true →
  Forall no_marker pre' → Py.startswith m' marker = true →
  returns (pre ++ m :: rest) self r ↔ returns (pre' ++ m' :: rest) self r.
Proof.
  intros Hpre Hm Hpre' Hm'.
  assert (H : ∀ p x, Forall no_marker p → Py.startswith x marker = true →
    (returns (p ++ x :: rest) self r ↔ r = parse_array convert float_repr alloc rest self)).
  { intros p x Hp Hx. split.
    - intros Hr. eapply returns_fun; [exact Hr|by apply returns_found].
    - intros ->. by apply returns_found. }
  by rewrite !H.
Qed.

(** X8: [parse] comes to an end, with a result or an error, exactly when
    some line of the file begins with the marker. *)
Theorem X8_parse_ends_iff_marker xpm self :
  (∃ fuel r, parse convert float_repr alloc fuel xpm self = Some r) ↔
  Exists (λ l, Py.startswith l marker = true) xpm.
Proof.
  split.
  - intros (fuel & r & (pre & m & rest & -> & _ & Hm & _)%parse_inv).
    apply Exists_app. right. by left.
  - intros (pre & m & rest & -> & Hpre & Hm)%first_marker.
    exists (S (length pre)), (parse_array convert float_repr alloc rest self).
    apply parse_found; [done..|lia].
Qed.

(** ** Errors of the allocation and of the row loop *)

Lemma header_decode xpm nx ny nc nb colors body self :
  header (autoconvert self) xpm nx ny nc nb colors body →
  ∃ rest self1 self2,
    returns xpm self (parse_array convert float_repr alloc rest self) ∧
    unchanged self self1 ∧ unchanged self self2 ∧
    decode convert float_repr alloc rest self
    = if nb =? 0 then (inl ZeroDivisionError, self1)
      else match Np.zeros alloc (nx / nb) ny (palette_dtype colors) with
           | inl e => (inl e, self1)
           | inr data0 => read_rows float_repr colors nx nb body data0 0 self2
           end.
Proof.
  intros (pre & m & dim & pal & pairs & -> & Hpre & Hm & Hdims & Hlen & Hpal & ->).
  destruct (decode_eq convert float_repr alloc dim pal body pairs nx ny nc nb self Hdims Hlen Hpal)
    as (self1 & self2 & Hu1 & Hu2 & Heq).
  exists (dim :: pal ++ body), self1, self2.
  split; [by apply returns_found|]. split; [exact Hu1|]. split; [exact Hu2|]. exact Heq.
Qed.

(** X9: a stride of zero in the dimension line makes [parse] raise
    [ZeroDivisionError], from the division that sizes the array, once the
    legend has been read; [array] is what it was before the call. *)
Theorem X9_zero_stride_raises xpm nx ny nc colors body self :
  header (autoconvert self) xpm nx ny nc 0 colors body →
  ∃ self', returns xpm self (inl ZeroDivisionError, self') ∧ array self' = array self.
Proof.
  intros (rest & self1 & self2 & Hret & (_ & Harr & _) & _ & Hdec)%header_decode.
  exists self1. split; [|done].
  unfold parse_array in Hret. by rewrite bind_unfold, Hdec in Hret.
Qed.

(** X10: a negative height, or a width and a stride of opposite signs, makes
    [parse] raise [ValueError] from the allocation of the array, once the
    legend has been read; [array] is what it was before the call. *)
Theorem X10_negative_shape_raises xpm nx ny nc nb colors body self :
  header (autoconvert self) xpm nx ny nc nb colors body →
  nb ≠ 0 → nx / nb < 0 ∨ ny < 0 →
  ∃ self', returns xpm self (inl ValueError, self') ∧ array self' = array self.
Proof.
  intros (rest & self1 & self2 & Hret & (_ & Harr & _) & _ & Hdec)%header_decode Hnb Hneg.
  exists self1. split; [|done].
  unfold parse_array in Hret. rewrite bind_unfold, Hdec in Hret.
  apply Z.eqb_neq in Hnb. rewrite Hnb in Hret.
  assert (Hz : Np.zeros alloc (nx / nb) ny (palette_dtype colors) = inl ValueError).
  { unfold Np.zeros. destruct (Z.ltb_spec (nx / nb) 0); [done|].
    destruct (Z.ltb_spec ny 0); [done|lia]. }
  by rewrite Hz in Hret.
Qed.

Lemma data_rows_not_comment body :
  Forall (λ l, Py.startswith l "/*" = false) (data_rows body).
Proof.
  unfold data_rows. induction body as [|l body IH]; [constructor|].
  rewrite filter_cons. destruct (decide _); [by constructor|done].
Qed.

Lemma data_rows_id rows :
  Forall (λ l, Py.startswith l "/*" = false) rows → data_rows rows = rows.
Proof.
  unfold data_rows. induction 1 as [|l rows Hl _ IH]; [done|].
  by rewrite filter_cons, decide_True, IH.
Qed.

(** X11: a file with more data rows than the [ny] of its dimension line is
    not decoded: once [numpy.zeros] has returned the array, the rows decode
    until the array is full, and the next one makes [parse] raise
    [IndexError]; [array] is what it was before the call. *)
Theorem X11_too_many_rows_raises xpm nx ny nc nb colors body self :
  header (autoconvert self) xpm nx ny nc nb colors body →
  nb ≠ 0 → allocates (nx / nb) ny (palette_dtype colors) →
  Forall (row_ok colors nx nb) (data_rows body) →
  fits nx nb (nx / nb) →
  ny < Z.of_nat (length (data_rows body)) →
  ∃ self', returns xpm self (inl IndexError, self') ∧ array self' = array self.
Proof.
  intros (rest0 & self1 & self2 & Hret & _ & Hu2 & Hdec)%header_decode Hnb Ha Hrows Hfits Hlen.
  destruct (zeros_ok alloc (nx / nb) ny (palette_dtype colors) Ha) as [data0 Hz].
  destruct Ha as ([H0 _] & [H1 _] & _).
  apply Z.eqb_neq in Hnb as Hnb'. rewrite Hnb', Hz in Hdec.
  apply zeros_inv in Hz as (Hwf & Hshape & _ & _).
  destruct (lookup_lt_is_Some_2 (data_rows body) (Z.to_nat ny)) as [line Hline]; [lia|].
  pose proof (take_drop_middle _ _ _ Hline) as Hsplit.
  set (good := take (Z.to_nat ny) (data_rows body)) in *.
  set (rest := drop (S (Z.to_nat ny)) (data_rows body)) in *.
  pose proof (data_rows_not_comment body) as Hnc. rewrite <-Hsplit in Hnc, Hrows.
  apply Forall_app in Hnc as [Hncg Hncl]. inversion_clear Hncl as [|?? Hcl _].
  apply Forall_app in Hrows as [Hrg Hrl]. inversion_clear Hrl as [|?? Hrow _].
  assert (Hgl : length good = Z.to_nat ny) by (unfold good; rewrite length_take; lia).
  destruct (read_rows_fill float_repr colors nx nb good data0 0 self2)
    as (data1 & self3 & Hfill & _);
    [done|done|lia|by rewrite data_rows_id|right; by rewrite Hshape
    |rewrite data_rows_id, Hshape by done; simpl; lia|].
  destruct (read_rows_inv _ _ _ _ _ _ _ _ _ _ Hfill) as [Hs1 _].
  destruct (lookup_all_ok colors (unquote line) nb _ (proj1 (Forall_forall _ _) Hrow))
    as (vals & Hvals & _).
  assert (Hrun : read_rows float_repr colors nx nb body data0 0 self2 = (inl IndexError, self3)).
  { rewrite read_rows_data_rows, <-Hsplit, read_rows_app, Hfill.
    rewrite data_rows_id by done. simpl. rewrite Hcl, Hnb', Hvals.
    unfold mbind, M_bind, lift, Np.set_column. rewrite Hs1, Hshape.
    destruct (Z.leb_spec ny (0 + Z.of_nat (length good))) as [|]; [|lia].
    by rewrite orb_true_r. }
  exists self3. split.
  - unfold parse_array in Hret. by rewrite bind_unfold, Hdec, Hrun in Hret.
  - assert (Hu3 : unchanged self2 self3) by (by eapply frames_read_rows).
    destruct Hu2 as (_ & Ha2 & _), Hu3 as (_ & Ha3 & _). unfold array. congruence.
Qed.

(** X12: whatever [parse] returns, it has not changed the [autoconvert]
    flag and has only added records to the log; and when it returns an
    error, whichever it is, [array] still holds what it held before: the
    array is assigned by the last statement only. *)
Theorem X12_error_keeps_the_array fuel xpm self r self' :
  parse convert float_repr alloc fuel xpm self = Some (r, self') →
  autoconvert self' = autoconvert self ∧
  (∃ l, logger self' = logger self ++ l) ∧
  (∀ e, r = inl e → array self' = array self).
Proof.
  intros (pre & m & rest & _ & _ & _ & Hr)%parse_inv. symmetry in Hr.
  unfold parse_array in Hr. apply bind_inv in Hr as [(e & Hd & ->)|(data & s1 & Hd & Hs)].
  - apply frames_decode in Hd as (Ha & Harr & Hl). split; [done|]. split; [done|].
    by intros _ _.
  - apply frames_decode in Hd as (Ha & Harr & Hl). inversion Hs; subst; simpl.
    split; [done|]. split; [done|]. by intros e.
Qed.

(** ** The cells of the decoded array *)

Lemma set_column_lookup data j vals data' :
  wf data → 0 ≤ j → Z.of_nat (length vals) = (Np.shape data).1 →
  Np.set_column float_repr data j vals = inr data' →
  ∀ i v, vals !! i = Some v →
    Np.item data' i (Z.to_nat j) = Some (Np.cast float_repr (Np.dtype_of data) v).
Proof.
  intros (H0 & H1 & Hlen & Hrows) Hj Hvals. unfold Np.set_column, Np.item.
  destruct (Np.shape data) as [n0 n1] eqn:Hs. simpl in *.
  destruct (Z.ltb_spec j (- n1)); [done|]. destruct (Z.leb_spec n1 j); [done|]. simpl.
  destruct (Z.ltb_spec j 0); [lia|].
  rewrite decide_True by done. intros [= <-] i v Hv. simpl.
  destruct (lookup_lt_is_Some_2 (Np.cells data) i) as [r Hr].
  { apply lookup_lt_Some in Hv. lia. }
  rewrite lookup_zip_with, Hr, Hv. simpl.
  apply list_lookup_insert_eq.
  rewrite (proj1 (Forall_forall _ _) Hrows r) by (by eapply list_elem_of_lookup_2). lia.
Qed.

Lemma lookup_all_lookup colors s nb ks : ∀ vals,
  lookup_all colors s nb ks = inr vals →
  ∀ i k, ks !! i = Some k → vals !! i = colors !! Py.slice s k (k + nb).
Proof.
  induction ks as [|k0 ks IH]; intros vals; simpl; [done|].
  destruct (colors !! Py.slice s k0 (k0 + nb)) as [v|] eqn:Hk; [|done].
  destruct (lookup_all colors s nb ks) as [e|vs]; [done|]. intros [= <-].
  intros [|i] k; simpl.
  - by intros [= <-].
  - by apply IH.
Qed.

Lemma read_rows_cells colors nx nb body : ∀ data iy self,
  wf data → nb ≠ 0 → 0 ≤ iy →
  Forall (row_ok colors nx nb) (data_rows body) →
  Z.of_nat (length (Py.xrange 0 nx nb)) = (Np.shape data).1 →
  iy + Z.of_nat (length (data_rows body)) ≤ (Np.shape data).2 →
  ∃ data' self',
    read_rows float_repr colors nx nb body data iy self = (inr data', self') ∧
    (∀ i (j : nat), Z.of_nat j < iy → Np.item data' i j = Np.item data i j) ∧
    ∀ (i j : nat) line k,
      data_rows body !! j = Some line → Py.xrange 0 nx nb !! i = Some k →
      Np.item data' i (Z.to_nat iy + j)
      = Np.cast float_repr (Np.dtype_of data) <$> colors !! Py.slice (unquote line) k (k + nb).
Proof.
  induction body as [|line body IH]; intros data iy self Hwf Hnb Hiy Hrows Hfits Hlen.
  - exists data, self. split; [done|]. by split.
  - simpl. unfold data_rows in *. rewrite filter_cons in *.
    destruct (Py.startswith line "/*") eqn:Hc.
    + rewrite decide_False in * by done. by apply IH.
    + rewrite decide_True in * by done. simpl in Hlen.
      inversion_clear Hrows as [|?? Hrow Hrows'].
      destruct (lookup_all_ok colors (unquote line) nb _ (proj1 (Forall_forall _ _) Hrow))
        as (vals & Hvals & Hl).
      destruct (set_column_ok float_repr data iy vals Hwf) as (data1 & Hset & Hwf1 & Hitem);
        [lia|left; by rewrite Hl|].
      destruct (set_column_inv _ _ _ _ _ Hset) as [Hshape Hdtype].
      pose proof (set_column_lookup data iy vals data1 Hwf Hiy ltac:(by rewrite Hl) Hset)
        as Hcol.
      unfold mbind, M_bind, lift, log.
      apply Z.eqb_neq in Hnb as Hnb'. rewrite Hnb', Hvals, Hset.
      match goal with
      | |- context [read_rows _ _ _ _ _ data1 _ ?s] =>
          destruct (IH data1 (iy + 1) s) as (data' & self' & -> & Hkeep & Hcells);
            [done|done|lia|done|by rewrite Hshape|rewrite Hshape; lia|]
      end.
      exists data', self'. split; [done|]. split.
      * intros i j Hj. rewrite Hkeep by lia. apply Hitem. lia.
      * intros i [|j] l k Hl' Hk.
        -- injection Hl' as <-. rewrite Nat.add_0_r, Hkeep by lia.
           destruct (lookup_lt_is_Some_2 vals i) as [v Hv].
           { apply lookup_lt_Some in Hk. lia. }
           rewrite (Hcol i v Hv).
           by rewrite <-(lookup_all_lookup _ _ _ _ _ Hvals i k Hk), Hv.
        -- replace (Z.to_nat iy + S j)%nat with (Z.to_nat (iy + 1) + j)%nat by lia.
           rewrite <-Hdtype. by apply Hcells.
Qed.

Lemma xrange_lookup nx nb (i : nat) :
  (i < length (Py.xrange 0 nx nb))%nat → Py.xrange 0 nx nb !! i = Some (Z.of_nat i * nb).
Proof.
  unfold Py.xrange. rewrite length_fmap, length_seq. intros Hi.
  by rewrite list_lookup_fmap, lookup_seq_lt.
Qed.

(** X13: when the header is well formed, [numpy.zeros] returns the array,
    the stride cuts the width into exactly [nx / nb] slices, every slice of
    every data row is a symbol of the legend and there are at most [ny]
    data rows, [parse] returns, and cell [(i, j)] of the array holds the
    value of the legend for characters [i * nb] to [i * nb + nb] of the text
    between the quote marks of data row [j], stored in the dtype of the
    array. *)
Theorem X13_cells_of_decoded_array xpm nx ny nc nb colors body self :
  header (autoconvert self) xpm nx ny nc nb colors body →
  nb ≠ 0 →
  allocates (nx / nb) ny (palette_dtype colors) →
  Z.of_nat (length (Py.xrange 0 nx nb)) = nx / nb →
  Forall (row_ok colors nx nb) (data_rows body) →
  Z.of_nat (length (data_rows body)) ≤ ny →
  ∃ data self',
    returns xpm self (inr (), self') ∧
    array self' = Some data ∧
    ∀ (i j : nat) line,
      Z.of_nat i < nx / nb → data_rows body !! j = Some line →
      Np.item data i j
      = Np.cast float_repr (palette_dtype colors)
          <$> colors !! Py.slice (unquote line) (Z.of_nat i * nb) (Z.of_nat i * nb + nb).
Proof.
  intros Hh Hnb Ha Hlen Hrows Hny.
  destruct (parse_rows convert float_repr alloc _ _ _ _ _ _ _ _ Hh Hnb Ha)
    as (data0 & self1 & Hz & Hu & Hret).
  apply zeros_inv in Hz as (Hwf & Hshape & Hdtype & _).
  destruct (read_rows_cells colors nx nb body data0 0 self1)
    as (data & self2 & Hrd & _ & Hcells);
    [done|done|lia|done|by rewrite Hshape|rewrite Hshape; simpl; lia|].
  unfold mbind, M_bind in Hret. rewrite Hrd in Hret.
  eexists data, _. split; [exact Hret|]. split; [done|].
  intros i j line Hi Hline.
  rewrite <-Hdtype. apply (Hcells i j line); [done|]. apply xrange_lookup. lia.
Qed.

(** ** The legend as a dictionary *)

Lemma dict_last {V} (ps1 ps2 : list (string * V)) k v :
  k ∉ ps2.*1 → dict (ps1 ++ (k, v) :: ps2) !! k = Some v.
Proof.
  unfold dict. rewrite foldl_app. simpl.
  generalize (foldl (λ d p, <[p.1:=p.2]> d) (∅ : gmap string V) ps1). intros d.
  assert (H : ∀ d : gmap string V, d !! k = Some v → k ∉ ps2.*1 →
    foldl (λ d p, <[p.1:=p.2]> d) d ps2 !! k = Some v).
  { induction ps2 as [|p ps2 IH]; intros d' Hd Hk; simpl; [done|].
    apply IH.
    - rewrite lookup_insert_ne; [done|]. intros Heq. apply Hk. rewrite <-Heq. by left.
    - intros Hin. apply Hk. by right. }
  intros Hk. apply H; [|done]. by rewrite lookup_insert_eq.
Qed.

(** X14: when two lines of the legend give the same symbol, the later one
    decides: the legend lines are read into the list of pairs, and the
    palette built from it maps a symbol to the value of the last line that
    defines it, converted when [autoconvert] is set. *)
Theorem X14_repeated_symbol_last_wins pal1 c pal2 pairs rest k v self :
  mapM legend_pair (pal1 ++ c :: pal2) = Some pairs →
  legend_pair c = Some (k, v) →
  Forall (λ c', fst <$> legend_pair c' ≠ Some k) pal2 →
  (∃ self', read_colours (length (pal1 ++ c :: pal2)) ((pal1 ++ c :: pal2) ++ rest) self
            = (inr (pairs, rest), self')) ∧
  palette (autoconvert self) pairs !! k
  = Some (if autoconvert self then convert v else Np.Str v).
Proof.
  intros Hpairs Hc Hlater. split.
  - destruct (read_colours_ok _ rest _ self Hpairs) as (self' & Hrc & _). by exists self'.
  - apply mapM_Some in Hpairs.
    apply Forall2_app_inv_l in Hpairs as (ps1 & ps' & _ & Hps' & ->).
    apply Forall2_cons_inv_l in Hps' as (p & ps2 & Hp & Hps2 & ->).
    assert (p = (k, v)) as -> by congruence.
    assert (Hk : k ∉ ps2.*1).
    { clear -Hlater Hps2. induction Hps2 as [|c' p' pal2 ps2 Hc' _ IH]; simpl.
      - by intros ?%elem_of_nil.
      - inversion_clear Hlater as [|?? Hne Hl]. intros [->|Hin]%elem_of_cons.
        + apply Hne. by rewrite Hc'.
        + by apply IH. }
    unfold palette.
    destruct (autoconvert self); by rewrite lookup_fmap, dict_last.
Qed.

(** ** The dtype of a file read without conversion *)

Lemma result_dtype_strings vals :
  vals ≠ [] → Forall (λ v, Np.kind v = Np.string_) vals → Np.result_dtype vals = Np.string_.
Proof.
  destruct vals as [|v vals]; [done|]. intros _ Hall. inversion_clear Hall as [|?? Hv Hvals].
  simpl. rewrite Hv. induction Hvals as [|w vals Hw _ IH]; [done|]. simpl. by rewrite Hw.
Qed.

Lemma dict_nonempty {V} (ps : list (string * V)) : ps ≠ [] → dict ps ≠ ∅.
Proof.
  destruct ps as [|p ps _] using rev_ind; [done|]. intros _ Hd.
  destruct p as [k v]. pose proof (dict_last ps [] k v ltac:(by intros ?%elem_of_nil)) as Hl.
  by rewrite Hd, lookup_empty in Hl.
Qed.

(** X15: a file read with [autoconvert] switched off gives an array of
    strings, whatever its legend spells, when its header is well formed
    and announces at least one colour; with no colour at all the array is
    one of floats. *)
Theorem X15_strings_without_autoconvert xpm nx ny nc nb colors body self fuel self' :
  header (autoconvert self) xpm nx ny nc nb colors body →
  autoconvert self = false →
  parse convert float_repr alloc fuel xpm self = Some (inr (), self') →
  ∃ data, array self' = Some data ∧
    Np.dtype_of data = if decide (0 < nc) then Np.string_ else Np.float64.
Proof.
  intros (pre & m & dim & pal & pairs & -> & Hpre & Hm & Hdims & Hlen & Hpal & ->) Hauto.
  intros (pre' & m' & rest' & Heq & Hpre' & Hm' & Hr)%parse_inv.
  apply marker_split_unique in Heq as (_ & _ & <-); [|done..].
  symmetry in Hr. apply parse_array_ok in Hr as (data & self1 & Hdec & Harr & _).
  apply (decode_ok_inv convert float_repr alloc dim pal body pairs nx ny nc nb) in Hdec
    as (Hnb & data0 & self2 & Hz & Hrows); [|done..].
  apply zeros_inv in Hz as (_ & _ & Hd0 & _).
  apply read_rows_inv in Hrows as [_ Hd].
  exists data. split; [done|]. rewrite Hd, Hd0, Hauto.
  unfold palette, palette_dtype.
  apply mapM_Some, Forall2_length in Hpal.
  destruct (decide (0 < nc)) as [Hnc|Hnc].
  - apply result_dtype_strings.
    + intros Hnil. apply fmap_nil_inv, map_to_list_empty_iff, fmap_empty_inv in Hnil.
      revert Hnil. apply dict_nonempty. intros ->. simpl in Hpal. lia.
    + apply Forall_fmap, Forall_forall. intros [k' w] Hin%elem_of_map_to_list.
      apply lookup_fmap_Some in Hin as (w' & <- & _). done.
  - destruct pairs; [|simpl in Hpal; lia].
    unfold dict. simpl. by rewrite fmap_empty, map_to_list_empty.
Qed.

(** ** What [parse] reads of the object *)

Lemma add_log_nil self : add_log self [] = self.
Proof. destruct self. unfold add_log. simpl. by rewrite app_nil_r. Qed.

Lemma add_log_app self l1 l2 : add_log (add_log self l1) l2 = add_log self (l1 ++ l2).
Proof. unfold add_log. simpl. by rewrite app_assoc. Qed.

Lemma oblivious_ret {A} (a : A) : oblivious (mret a).
Proof. intros s1 s2 _. exists (inr a), []. by rewrite !add_log_nil. Qed.

Lemma oblivious_raise {A} e : oblivious (raise (A:=A) e).
Proof. intros s1 s2 _. exists (inl e), []. by rewrite !add_log_nil. Qed.

Lemma oblivious_lift {A} (r : exn + A) : oblivious (lift r).
Proof. intros s1 s2 _. exists r, []. by rewrite !add_log_nil. Qed.

Lemma oblivious_log lv fmt a : oblivious (log lv fmt a).
Proof. intros s1 s2 _. by exists (inr ()), [mk_record lv fmt a]. Qed.

Lemma oblivious_get : oblivious get_autoconvert.
Proof.
  intros s1 s2 Ha. exists (inr (autoconvert s1)), []. rewrite !add_log_nil.
  unfold get_autoconvert. by rewrite Ha.
Qed.

Lemma oblivious_bind {A B} (m : M A) (f : A → M B) :
  oblivious m → (∀ a, oblivious (f a)) → oblivious (m ≫= f).
Proof.
  intros Hm Hf s1 s2 Ha. destruct (Hm s1 s2 Ha) as (r & l & H1 & H2).
  unfold mbind, M_bind. rewrite H1, H2. destruct r as [e|a].
  - by exists (inl e), l.
  - destruct (Hf a (add_log s1 l) (add_log s2 l) Ha) as (r' & l' & -> & ->).
    exists r', (l ++ l'). by rewrite !add_log_app.
Qed.

Lemma oblivious_col c : oblivious (col c).
Proof.
  unfold col. destruct (Re.search COLOUR c).
  - apply oblivious_bind; [apply oblivious_log|]. intros _. apply oblivious_ret.
  - apply oblivious_bind; [apply oblivious_log|]. intros _. apply oblivious_raise.
Qed.

Lemma oblivious_read_dims dim : oblivious (read_dims dim).
Proof.
  unfold read_dims. repeat case_match; first [apply oblivious_ret|apply oblivious_raise].
Qed.

Lemma oblivious_read_colours n : ∀ xpm, oblivious (read_colours n xpm).
Proof.
  induction n as [|n IH]; intros xpm; simpl; [apply oblivious_ret|].
  destruct (readline xpm) as [c xpm'].
  apply oblivious_bind; [apply oblivious_col|]. intros p.
  apply oblivious_bind; [apply IH|]. intros [ps xpm'']. apply oblivious_ret.
Qed.

Lemma oblivious_read_rows colors nx nb xpm : ∀ data iy,
  oblivious (read_rows float_repr colors nx nb xpm data iy).
Proof.
  induction xpm as [|line xpm IH]; intros data iy; simpl; [apply oblivious_ret|].
  destruct (Py.startswith line "/*"); [apply IH|].
  apply oblivious_bind; [apply oblivious_lift|]. intros vals.
  apply oblivious_bind; [apply oblivious_lift|]. intros data'.
  apply oblivious_bind; [apply oblivious_log|]. intros _. apply IH.
Qed.

Lemma oblivious_decode xpm : oblivious (decode convert float_repr alloc xpm).
Proof.
  unfold decode. destruct (readline xpm) as [dim xpm'].
  apply oblivious_bind; [apply oblivious_read_dims|]. intros [[[nx ny] nc] nb].
  apply oblivious_bind; [apply oblivious_read_colours|]. intros [pairs xpm''].
  apply oblivious_bind; [apply oblivious_get|]. intros auto.
  apply oblivious_bind.
  { destruct auto; [|apply oblivious_ret].
    apply oblivious_bind; [apply oblivious_log|]. intros _. apply oblivious_ret. }
  intros colors.
  apply oblivious_bind; [apply oblivious_log|]. intros _.
  apply oblivious_bind.
  { destruct (nb =? 0); [apply oblivious_raise|apply oblivious_lift]. }
  intros data.
  apply oblivious_bind; [apply oblivious_log|]. intros _. apply oblivious_read_rows.
Qed.

(** X16: [parse] reads nothing of the object but its [autoconvert] flag.
    On two objects with the same flag, whatever array and log they hold,
    it ends for the same amounts of fuel, with the same result, the same
    records added to the log and, when it returns, the same array. *)
Theorem X16_previous_array_is_not_read fuel xpm self1 self2 :
  autoconvert self1 = autoconvert self2 →
  match parse convert float_repr alloc fuel xpm self1, parse convert float_repr alloc fuel xpm self2 with
  | Some (r1, s1), Some (r2, s2) =>
      r1 = r2 ∧ (r1 = inr () → array s1 = array s2) ∧
      ∃ l, logger s1 = logger self1 ++ l ∧ logger s2 = logger self2 ++ l
  | None, None => True
  | _, _ => False
  end.
Proof.
  intros Ha. unfold parse. destruct (readline xpm) as [l0 xpm'].
  destruct (scan_meta fuel [l0] xpm') as [[meta rest]|]; [|done].
  unfold parse_array, mbind, M_bind.
  destruct (oblivious_decode rest self1 self2 Ha) as (r & l & -> & ->).
  destruct r as [e|data]; simpl.
  - split; [done|]. split; [done|]. by exists l.
  - split; [done|]. split; [done|]. by exists l.
Qed.

(** ** The files that [parse] decodes *)

Lemma set_column_ok_inv data j vals data' :
  Np.set_column float_repr data j vals = inr data' → 0 ≤ j →
  j < (Np.shape data).2 ∧
  (Z.of_nat (length vals) = (Np.shape data).1 ∨ length vals = 1%nat).
Proof.
  unfold Np.set_column. destruct (Np.shape data) as [n0 n1]. simpl.
  destruct (Z.ltb_spec j (- n1)); [done|]. destruct (Z.leb_spec n1 j); [done|]. simpl.
  destruct (decide _) as [Heq|Hne]; [by split; [|left]|].
  destruct vals as [|v [|??]]; [done| |done]. by split; [|right].
Qed.

Lemma lookup_all_length colors s nb ks : ∀ vals,
  lookup_all colors s nb ks = inr vals → length vals = length ks.
Proof.
  induction ks as [|k ks IH]; intros vals; simpl; [by intros [= <-]|].
  destruct (colors !! Py.slice s k (k + nb)); [|done].
  destruct (lookup_all colors s nb ks) as [e|vs]; [done|]. intros [= <-].
  simpl. by rewrite (IH vs).
Qed.

Lemma read_rows_ok_inv colors nx nb body : ∀ data iy self data' self',
  read_rows float_repr colors nx nb body data iy self = (inr data', self') → 0 ≤ iy →
  (data_rows body = [] ∨ fits nx nb (Np.shape data).1) ∧
  iy + Z.of_nat (length (data_rows body)) ≤ Z.max iy (Np.shape data).2.
Proof.
  induction body as [|line body IH]; intros data iy self data' self'; simpl.
  - intros _ Hiy. split; [by left|]. simpl. lia.
  - unfold data_rows in *. rewrite filter_cons.
    destruct (Py.startswith line "/*") eqn:Hc.
    + rewrite decide_False by done. apply IH.
    + rewrite decide_True by done.
      unfold mbind, M_bind, lift, log.
      destruct (nb =? 0); [done|].
      destruct (lookup_all colors (unquote line) nb (Py.xrange 0 nx nb)) as [e|vals] eqn:Hvals;
        [done|].
      destruct (Np.set_column float_repr data iy vals) as [e|data1] eqn:Hset; [done|].
      intros Hrd Hiy.
      destruct (set_column_ok_inv _ _ _ _ Hset Hiy) as [Hlt Hfit].
      destruct (set_column_inv _ _ _ _ _ Hset) as [Hshape _].
      apply IH in Hrd as [_ Hlen]; [|lia]. rewrite Hshape in Hlen.
      apply lookup_all_length in Hvals. rewrite Hvals in Hfit.
      split; [by right|]. simpl length. lia.
Qed.

(** X17: for a file with a well-formed header, [parse] decodes the file if
    and only if the stride is not zero, [numpy.zeros] returns the array
    (neither dimension is negative or beyond the index type, and the
    allocator grants the block), every slice of every data row is a symbol
    of the legend, there are at most [ny] data rows and, when there is a
    data row at all, the number of slices of a row is the height [nx / nb]
    of a column or one. *)
Theorem X17_files_that_decode xpm nx ny nc nb colors body self :
  header (autoconvert self) xpm nx ny nc nb colors body →
  (∃ self', returns xpm self (inr (), self')) ↔
  nb ≠ 0 ∧ allocates (nx / nb) ny (palette_dtype colors) ∧
  Forall (row_ok colors nx nb) (data_rows body) ∧
  (data_rows body = [] ∨ fits nx nb (nx / nb)) ∧
  Z.of_nat (length (data_rows body)) ≤ ny.
Proof.
  intros Hh. split.
  - intros [self' [n Hret]]. specialize (Hret n (le_n n)).
    destruct (header_parse_ok convert float_repr alloc _ _ _ _ _ _ _ _ _ _ Hh Hret) as [Hnb Hrows].
    destruct Hh as (pre & m & dim & pal & pairs & -> & Hpre & Hm & Hdims & Hlen & Hpal & ->).
    apply parse_inv in Hret as (pre' & m' & rest' & Heq & Hpre' & Hm' & Hr).
    apply marker_split_unique in Heq as (_ & _ & <-); [|done..].
    symmetry in Hr. apply parse_array_ok in Hr as (data & self1 & Hdec & _).
    apply (decode_ok_inv convert float_repr alloc dim pal body pairs nx ny nc nb) in Hdec
      as (_ & data0 & self2 & Hz & Hrd); [|done..].
    pose proof (zeros_allocates _ _ _ _ _ Hz) as Ha.
    apply zeros_inv in Hz as ((H0 & H1 & _) & Hshape & _). rewrite Hshape in H0, H1.
    apply read_rows_ok_inv in Hrd as [Hfits Hny]; [|lia]. rewrite Hshape in Hfits, Hny.
    simpl in *. split; [done|]. split; [done|]. split; [done|]. split; [done|]. lia.
  - intros (Hnb & Ha & Hrows & Hfits & Hlen).
    destruct (parse_rows convert float_repr alloc _ _ _ _ _ _ _ _ Hh Hnb Ha)
      as (data0 & self1 & Hz & Hu & Hret).
    apply zeros_inv in Hz as (Hwf & Hshape & _).
    destruct (read_rows_fill float_repr colors nx nb body data0 0 self1)
      as (data & self2 & Hrd & _);
      [done|done|lia|done|by rewrite Hshape|rewrite Hshape; simpl; lia|].
    unfold mbind, M_bind in Hret. rewrite Hrd in Hret. by eexists.
Qed.

(** X21: a dimension beyond the index type of numpy makes [parse] raise
    [ValueError] from [numpy.zeros], whatever the allocator would answer
    and even when the other dimension is zero, so that the array would
    hold nothing; [array] is what it was before the call. *)
Theorem X21_dimension_beyond_index_type_raises xpm nx ny nc nb colors body self :
  header (autoconvert self) xpm nx ny nc nb colors body →
  nb ≠ 0 → Np.max_intp < nx / nb ∨ Np.max_intp < ny →
  ∃ self', returns xpm self (inl ValueError, self') ∧ array self' = array self.
Proof.
  intros (rest & self1 & self2 & Hret & (_ & Harr & _) & _ & Hdec)%header_decode Hnb Hbig.
  exists self1. split; [|done].
  unfold parse_array in Hret. rewrite bind_unfold, Hdec in Hret.
  apply Z.eqb_neq in Hnb. rewrite Hnb in Hret.
  assert (Hz : Np.zeros alloc (nx / nb) ny (palette_dtype colors) = inl ValueError).
  { unfold Np.zeros.
    destruct (Z.ltb_spec (nx / nb) 0); [done|]. destruct (Z.ltb_spec ny 0); [done|].
    destruct (Z.ltb_spec Np.max_intp (nx / nb)); [done|].
    destruct (Z.ltb_spec Np.max_intp ny); [done|lia]. }
  by rewrite Hz in Hret.
Qed.

(** X22: when the dimensions are within the index type and the allocator
    refuses the block, [parse] raises the error of the refusal, [ValueError]
    for an array that is too big and [MemoryError] for lack of memory, after
    the legend has been read and before any data row is; [array] is what it
    was before the call. *)
Theorem X22_refused_allocation_raises xpm nx ny nc nb colors body self :
  header (autoconvert self) xpm nx ny nc nb colors body →
  nb ≠ 0 → 0 ≤ nx / nb ≤ Np.max_intp → 0 ≤ ny ≤ Np.max_intp →
  alloc (nx / nb) ny (palette_dtype colors) ≠ Np.Granted →
  ∃ self',
    returns xpm self
      (inl match alloc (nx / nb) ny (palette_dtype colors) with
           | Np.NoMemory => MemoryError
           | _ => ValueError
           end, self') ∧
    array self' = array self.
Proof.
  intros (rest & self1 & self2 & Hret & (_ & Harr & _) & _ & Hdec)%header_decode
    Hnb H0 H1 Hno.
  exists self1. split; [|done].
  unfold parse_array in Hret. rewrite bind_unfold, Hdec in Hret.
  apply Z.eqb_neq in Hnb. rewrite Hnb in Hret.
  unfold Np.zeros in Hret.
  destruct (Z.ltb_spec (nx / nb) 0); [lia|]. destruct (Z.ltb_spec ny 0); [lia|].
  destruct (Z.ltb_spec Np.max_intp (nx / nb)); [lia|].
  destruct (Z.ltb_spec Np.max_intp ny); [lia|].
  simpl in Hret. by destruct (alloc (nx / nb) ny (palette_dtype colors)).
Qed.

(** ** Files that end too early *)

(** X18: a file that ends inside its legend, after fewer than [nc] legend
    lines, is not decoded: the end of the file reads as an empty line,
    which is no legend entry, and [parse] raises [ParseError] for the empty
    line after handing a FATAL record to the logger; [array] is what it was
    before the call. *)
Theorem X18_file_ends_in_the_legend pre m dim good nx ny nc nb self :
  Forall no_marker pre → Py.startswith m marker = true →
  dims_of dim = Some (nx, ny, nc, nb) →
  Forall legend_line good → (length good < Z.to_nat nc)%nat →
  ∃ self',
    returns (pre ++ m :: dim :: good) self (inl (ParseError EmptyString), self') ∧
    last (logger self') = Some (fatal_record EmptyString) ∧
    array self' = array self.
Proof.
  intros Hpre Hm Hdims Hgood Hlen.
  destruct (legend_pairs_of good Hgood) as [pairs Hpairs].
  destruct (read_colours_fail good (Z.to_nat nc) [] EmptyString pairs self Hpairs)
    as (self' & Hrc & (_ & Harr & _) & Hlast); [done|done|done|].
  rewrite app_nil_r in Hrc.
  exists self'. split; [|done].
  replace (inl (ParseError EmptyString), self')
    with (parse_array convert float_repr alloc (dim :: good) self);
    [by apply returns_found|].
  unfold parse_array, decode.
  change (readline (dim :: good)) with (dim, good). cbv iota beta.
  apply bind_inl.
  assert (Hd : read_dims dim self = (inr (nx, ny, nc, nb), self))
    by (by rewrite read_dims_eq, Hdims).
  rewrite (bind_inr _ _ _ _ _ Hd). by apply bind_inl.
Qed.

(** X19: a file that ends with its marker line is not decoded: the end of
    the file reads as an empty dimension line, and [parse] raises
    [ValueError], leaving the object as it was. *)
Theorem X19_file_ends_at_the_marker pre m self :
  Forall no_marker pre → Py.startswith m marker = true →
  returns (pre ++ [m]) self (inl ValueError, self).
Proof.
  intros Hpre Hm.
  replace (inl ValueError, self) with (parse_array convert float_repr alloc [] self);
    [by apply returns_found|].
  reflexivity.
Qed.

End MoreFacts.

(** ** A legend line as Gromacs writes it *)

Lemma quote_split_unique a b a' b' :
  count_quotes a = 0%nat → count_quotes a' = 0%nat →
  a +:+ String dquote b = a' +:+ String dquote b' → a = a' ∧ b = b'.
Proof.
  revert a'. induction a as [|x a IH]; intros [|x' a']; rewrite ?app_cons_s, ?app_nil_l_s.
  - by intros _ _ [= ->].
  - intros _ Hq [= <- _]. simpl in Hq. rewrite ?Ascii.eqb_refl in Hq. done.
  - intros Hq _ [= -> _]. simpl in Hq. rewrite ?Ascii.eqb_refl in Hq. done.
  - simpl. intros Hq Hq' [= <- Heq].
    destruct (IH a') as [-> ->]; [lia..|done|done].
Qed.

Lemma legend_text_quotes g post :
  legend_ok g = true →
  ∃ mid between,
    legend_text g +:+ post
    = l_pre g +:+ String dquote (String (l_symbol g) mid +:+ String dquote (between +:+
        String dquote (l_value g +:+ String dquote post))) ∧
    count_quotes (String (l_symbol g) mid) = 0%nat ∧ count_quotes between = 0%nat.
Proof.
  unfold legend_ok. rewrite !andb_true_iff.
  intros [[[[[[[[[[[Hpre Hx] Hn1] H1] Hn2] H2] Hn3] H3] H4] H5] H6] H7].
  exists (l_ws1 g +:+ String "c" (l_ws2 g +:+ String "#" (l_hex g +:+ l_ws3 g))),
    (l_ws4 g +:+ String "/" (String "*" (l_ws5 g))).
  split; [|split].
  - unfold legend_text. by repeat (rewrite ?app_assoc_s, ?app_cons_s, ?app_nil_l_s).
  - assert (Hx' : Ascii.eqb (l_symbol g) dquote = false).
    { destruct (Ascii.eqb_spec (l_symbol g) dquote) as [Heq|]; [|done].
      rewrite Heq in Hx. by vm_compute in Hx. }
    simpl. rewrite Hx'. rewrite !count_quotes_app. simpl. rewrite !count_quotes_app. simpl.
    rewrite !count_quotes_app.
    rewrite (count_quotes_class Re.space (l_ws1 g)), (count_quotes_class Re.space (l_ws2 g)),
      (count_quotes_class Re.hex_class (l_hex g)), (count_quotes_class Re.space (l_ws3 g));
      done.
  - rewrite !count_quotes_app. simpl.
    by rewrite (count_quotes_class Re.space (l_ws4 g)),
      (count_quotes_class Re.space (l_ws5 g)).
Qed.

(** X20: [col] reads back a legend line written the way Gromacs writes
    it: for a symbol that is a letter or a blank, a colour of [#] and hex
    digits, and a value without a quote mark or a line end, it returns the
    symbol and the value, and changes nothing but the log. *)
Theorem X20_col_reads_a_written_entry x hex value self :
  Re.symbol_class x = true →
  nonempty hex = true → all_in Re.hex_class hex = true →
  all_in Re.any value = true → count_quotes value = 0%nat →
  ∃ self',
    col (legend_entry (String x EmptyString) (String "#" hex) value) self
    = (inr (String x EmptyString, value), self') ∧
    unchanged self self'.
Proof.
  intros Hx Hne Hhex Hany Hq.
  apply col_ok. unfold legend_pair.
  pose (g0 := {| l_pre := ""; l_symbol := x; l_ws1 := "  "; l_ws2 := " "; l_hex := hex;
                 l_ws3 := " "; l_ws4 := " "; l_ws5 := " "; l_value := value |}).
  pose (post0 := " */," +:+ newline).
  assert (Hc : legend_entry (String x EmptyString) (String "#" hex) value
               = legend_text g0 +:+ post0).
  { unfold legend_entry, quoted, legend_text, g0, post0. simpl.
    by repeat (rewrite ?app_assoc_s, ?app_cons_s, ?app_nil_l_s). }
  assert (Hok0 : legend_ok g0 = true).
  { unfold legend_ok, g0. simpl. by rewrite Hx, Hne, Hhex, Hany. }
  rewrite Hc.
  destruct (COLOUR_complete g0 post0 Hok0) as [m Hm]. rewrite Hm.
  apply COLOUR_sound in Hm as (g & post & Hok & Heq & Hsym & Hval).
  change (Some (Re.group COLOUR m "symbol", Re.group COLOUR m "value")
          = Some (String x EmptyString, value)).
  rewrite Hsym, Hval.
  destruct (legend_text_quotes g0 post0 Hok0) as (mid0 & btw0 & Ht0 & Hm0 & Hb0).
  destruct (legend_text_quotes g post Hok) as (mid & btw & Ht & Hm1 & Hb1).
  rewrite Ht0, Ht in Heq. change (l_pre g0) with EmptyString in Heq.
  change (l_symbol g0) with x in *. change (l_value g0) with value in Heq.
  assert (Hcount : (count_quotes (l_pre g) + count_quotes (l_value g) + count_quotes post
                    = count_quotes post0)%nat).
  { apply (f_equal count_quotes) in Heq.
    repeat (rewrite ?count_quotes_app in Heq; cbn [count_quotes] in Heq).
    rewrite ?Ascii.eqb_refl in Heq.
    cbn [count_quotes] in Hm0, Hm1. lia. }
  assert (Hp0 : count_quotes post0 = 0%nat) by reflexivity.
  apply quote_split_unique in Heq as [Hpre Heq]; [|done|lia].
  apply quote_split_unique in Heq as [Hmid Heq]; [|done..].
  apply quote_split_unique in Heq as [Hbtw Heq]; [|done..].
  apply quote_split_unique in Heq as [Hv _]; [|done|lia].
  injection Hmid as Hmid _. congruence.
Qed.

(** * Instances of these properties on concrete lines and files *)

Lemma X1_unquote_between_quotes_witness : unquote (data_line " o") = " o".
Proof.
  apply (X1_unquote_between_quotes EmptyString " o" ("," +:+ newline)); reflexivity.
Defined.

Lemma X2_unquote_without_quotes_witness : unquote "2 2 2 1" = "2 2 2 ".
Proof. apply (X2_unquote_without_quotes "2 2 2 " "1"). reflexivity. Defined.

Lemma X3_unquote_single_quote_witness :
  unquote (String dquote (" o," +:+ newline)) = EmptyString.
Proof. apply (X3_unquote_single_quote (String dquote (" o," +:+ newline))). reflexivity. Defined.

Lemma X4_uncomment_between_delimiters_witness :
  uncomment ("/* x-axis:  0 1 */" +:+ newline) = " x-axis:  0 1 ".
Proof. apply (X4_uncomment_between_delimiters " x-axis:  0 1 " newline). reflexivity. Defined.

Lemma X5_uncomment_without_delimiters_witness : uncomment "x-axis" = "-axi".
Proof. apply (X5_uncomment_without_delimiters "x" "-axi" "s"); reflexivity. Defined.

Lemma X6_comment_lines_are_skipped_witness :
  parse convert_model float_repr_none alloc_model 2
    (head_lines "2 2 2 1" ++ legend01 ++ commented_body) fresh
  = parse convert_model float_repr_none alloc_model 2 fixture fresh.
Proof.
  apply (X6_comment_lines_are_skipped convert_model float_repr_none alloc_model
           ["/* XPM */" +:+ newline] ("static char *gromacs_xpm[] = {" +:+ newline)
           (quoted "2 2 2 1" +:+ "," +:+ newline) legend01 commented_body 2 2 2 1 fresh 2).
  - by repeat constructor.
  - by vm_compute.
  - by vm_compute.
  - done.
Defined.

Lemma X7_lines_before_marker_are_discarded_witness :
  returns convert_model float_repr_none alloc_model
    (("static char *gromacs_xpm[] = {" +:+ newline) :: [quoted "4 2 2" +:+ "," +:+ newline])
    fresh (inl ValueError, fresh).
Proof.
  apply (X7_lines_before_marker_are_discarded convert_model float_repr_none alloc_model
           ["/* XPM */" +:+ newline; "/* title:   " +:+ quoted "Map" +:+ " */" +:+ newline] []
           ("static char *gromacs_xpm[] = {" +:+ newline)
           ("static char *gromacs_xpm[] = {" +:+ newline)
           [quoted "4 2 2" +:+ "," +:+ newline] fresh (inl ValueError, fresh)).
  - by repeat constructor.
  - by vm_compute.
  - constructor.
  - by vm_compute.
  - exists 3%nat. intros fuel Hfuel.
    do 3 (destruct fuel as [|fuel]; [lia|]). reflexivity.
Defined.

Lemma X9_zero_stride_raises_witness :
  ∃ self', returns convert_model float_repr_none alloc_model zero_stride_file fresh
             (inl ZeroDivisionError, self') ∧ array self' = array fresh.
Proof.
  apply (X9_zero_stride_raises convert_model float_repr_none alloc_model zero_stride_file 2 2 2
           (palette convert_model true [(" ", "0"); ("o", "1")])
           [data_line " o"; quoted "o " +:+ newline] fresh).
  by apply legend01_header.
Defined.

Lemma X10_negative_shape_raises_witness :
  ∃ self', returns convert_model float_repr_none alloc_model negative_height_file fresh
             (inl ValueError, self') ∧ array self' = array fresh.
Proof.
  apply (X10_negative_shape_raises convert_model float_repr_none alloc_model negative_height_file
           2 (-2) 2 1 (palette convert_model true [(" ", "0"); ("o", "1")])
           [data_line " o"; quoted "o " +:+ newline] fresh).
  - by apply legend01_header.
  - lia.
  - right. lia.
Defined.

Lemma X11_too_many_rows_raises_witness :
  ∃ self', returns convert_model float_repr_none alloc_model long_file fresh (inl IndexError, self') ∧
           array self' = array fresh.
Proof.
  apply (X11_too_many_rows_raises convert_model float_repr_none alloc_model long_file 2 1 2 1
           (palette convert_model true [(" ", "0"); ("o", "1")])
           [data_line " o"; quoted "o " +:+ newline] fresh).
  - by apply legend01_header.
  - lia.
  - by vm_compute.
  - repeat constructor; vm_compute; by eexists.
  - by left.
  - by vm_compute.
Defined.

Lemma X12_error_keeps_the_array_witness :
  ∃ r self',
    parse convert_model float_repr_none alloc_model 2 unknown_file used = Some (r, self') ∧
    autoconvert self' = autoconvert used ∧
    (∃ l, logger self' = logger used ++ l) ∧
    (∀ e, r = inl e → array self' = array used).
Proof.
  eexists _, _. split; [vm_compute; reflexivity|].
  apply (X12_error_keeps_the_array convert_model float_repr_none alloc_model 2 unknown_file used).
  vm_compute. reflexivity.
Defined.

Lemma X13_cells_of_decoded_array_witness :
  ∃ data self',
    returns convert_model float_repr_none alloc_model fixture fresh (inr (), self') ∧
    array self' = Some data ∧
    ∀ (i j : nat) line,
      Z.of_nat i < 2 / 1 →
      data_rows [data_line " o"; quoted "o " +:+ newline] !! j = Some line →
      Np.item data i j
      = Np.cast float_repr_none
          (palette_dtype (palette convert_model true [(" ", "0"); ("o", "1")]))
          <$> palette convert_model true [(" ", "0"); ("o", "1")]
              !! Py.slice (unquote line) (Z.of_nat i * 1) (Z.of_nat i * 1 + 1).
Proof.
  apply (X13_cells_of_decoded_array convert_model float_repr_none alloc_model fixture 2 2 2 1
           (palette convert_model true [(" ", "0"); ("o", "1")])
           [data_line " o"; quoted "o " +:+ newline] fresh).
  - by apply legend01_header.
  - lia.
  - by vm_compute.
  - by vm_compute.
  - repeat constructor; vm_compute; by eexists.
  - by vm_compute.
Defined.

Lemma X14_repeated_symbol_last_wins_witness :
  (∃ self', read_colours (length repeated_legend) (repeated_legend ++ [data_line "o"]) fresh
            = (inr ([("o", "0"); ("o", "1"); (" ", "7")], [data_line "o"]), self')) ∧
  palette convert_model (autoconvert fresh) [("o", "0"); ("o", "1"); (" ", "7")] !! "o"
  = Some (if autoconvert fresh then convert_model "1" else Np.Str "1").
Proof.
  apply (X14_repeated_symbol_last_wins convert_model
           [legend_entry "o" "#FFFFFF" "0"] (legend_entry "o" "#FF0000" "1")
           [legend_entry " " "#0000FF" "7"] [("o", "0"); ("o", "1"); (" ", "7")]
           [data_line "o"] "o" "1" fresh).
  - by vm_compute.
  - by vm_compute.
  - repeat constructor. by vm_compute.
Defined.

Lemma X15_strings_without_autoconvert_witness :
  ∃ self',
    parse convert_model float_repr_none alloc_model 2 fixture plain = Some (inr (), self') ∧
    ∃ data, array self' = Some data ∧
      Np.dtype_of data = if decide (0 < 2) then Np.string_ else Np.float64.
Proof.
  eexists. split; [vm_compute; reflexivity|].
  apply (X15_strings_without_autoconvert convert_model float_repr_none alloc_model fixture 2 2 2 1
           (palette convert_model false [(" ", "0"); ("o", "1")])
           [data_line " o"; quoted "o " +:+ newline] plain 2).
  - exists ["/* XPM */" +:+ newline], ("static char *gromacs_xpm[] = {" +:+ newline),
      (quoted "2 2 2 1" +:+ "," +:+ newline), legend01, [(" ", "0"); ("o", "1")].
    split; [done|]. split; [by repeat constructor|]. split; [by vm_compute|].
    split; [by vm_compute|]. split; [done|]. split; [by vm_compute|done].
  - done.
  - vm_compute. reflexivity.
Defined.

Lemma X16_previous_array_is_not_read_witness :
  match parse convert_model float_repr_none alloc_model 2 fixture fresh,
        parse convert_model float_repr_none alloc_model 2 fixture used with
  | Some (r1, s1), Some (r2, s2) =>
      r1 = r2 ∧ (r1 = inr () → array s1 = array s2) ∧
      ∃ l, logger s1 = logger fresh ++ l ∧ logger s2 = logger used ++ l
  | None, None => True
  | _, _ => False
  end.
Proof.
  apply (X16_previous_array_is_not_read convert_model float_repr_none alloc_model 2 fixture fresh used).
  reflexivity.
Defined.

Lemma X17_files_that_decode_witness :
  ∃ self', returns convert_model float_repr_none alloc_model fixture fresh (inr (), self').
Proof.
  apply (proj2 (X17_files_that_decode convert_model float_repr_none alloc_model fixture 2 2 2 1
                  (palette convert_model true [(" ", "0"); ("o", "1")])
                  [data_line " o"; quoted "o " +:+ newline] fresh
                  (legend01_header "2 2 2 1" 2 2 1 _ eq_refl))).
  split; [lia|]. split; [by vm_compute|].
  split; [repeat constructor; vm_compute; by eexists|].
  split; [right; by left|by vm_compute].
Defined.

Lemma X21_dimension_beyond_index_type_raises_witness :
  ∃ self', returns convert_model float_repr_none alloc_model huge_height_file fresh
             (inl ValueError, self') ∧ array self' = array fresh.
Proof.
  apply (X21_dimension_beyond_index_type_raises convert_model float_repr_none alloc_model
           huge_height_file 1 99999999999999999999 2 2
           (palette convert_model true [(" ", "0"); ("o", "1")]) [] fresh).
  - change huge_height_file with (head_lines "1 99999999999999999999 2 2" ++ legend01 ++ []).
    by apply legend01_header.
  - lia.
  - right. by vm_compute.
Defined.

Lemma X22_refused_allocation_raises_witness :
  ∃ self', returns convert_model float_repr_none alloc_model large_file fresh
             (inl MemoryError, self') ∧ array self' = array fresh.
Proof.
  apply (X22_refused_allocation_raises convert_model float_repr_none alloc_model
           large_file 2048 2048 2 1
           (palette convert_model true [(" ", "0"); ("o", "1")]) [] fresh).
  - change large_file with (head_lines "2048 2048 2 1" ++ legend01 ++ []).
    by apply legend01_header.
  - lia.
  - by vm_compute.
  - by vm_compute.
  - by vm_compute.
Defined.

Lemma X18_file_ends_in_the_legend_witness :
  ∃ self',
    returns convert_model float_repr_none alloc_model
      (head_lines "2 2 2 1" ++ [legend_entry " " "#FFFFFF" "0"]) fresh
      (inl (ParseError EmptyString), self') ∧
    last (logger self') = Some (fatal_record EmptyString) ∧
    array self' = array fresh.
Proof.
  apply (X18_file_ends_in_the_legend convert_model float_repr_none alloc_model
           ["/* XPM */" +:+ newline] ("static char *gromacs_xpm[] = {" +:+ newline)
           (quoted "2 2 2 1" +:+ "," +:+ newline) [legend_entry " " "#FFFFFF" "0"]
           2 2 2 1 fresh).
  - by repeat constructor.
  - by vm_compute.
  - by vm_compute.
  - repeat constructor. apply legend_line_search. vm_compute. by eexists.
  - simpl. lia.
Defined.

Lemma X19_file_ends_at_the_marker_witness :
  returns convert_model float_repr_none alloc_model
    ["/* XPM */" +:+ newline; "static char *gromacs_xpm[] = {" +:+ newline] fresh
    (inl ValueError, fresh).
Proof.
  apply (X19_file_ends_at_the_marker convert_model float_repr_none alloc_model
           ["/* XPM */" +:+ newline] ("static char *gromacs_xpm[] = {" +:+ newline) fresh).
  - by repeat constructor.
  - by vm_compute.
Defined.

Lemma X20_col_reads_a_written_entry_witness :
  ∃ self', col (legend_entry "o" "#FF0000" "1") fresh = (inr ("o", "1"), self') ∧
           unchanged fresh self'.
Proof.
  apply (X20_col_reads_a_written_entry "o" "FF0000" "1" fresh); reflexivity.
Defined.
